(** * enyo.List: paging engine and swipe gesture controller

    A shallow embedding of [list/source/List.js].  The list object is a
    record of the instance fields the code reads and writes; every method
    becomes a function on that record.  Pixel quantities (heights, scroll
    offsets, drag deltas) are integers, as the DOM box metrics the code
    reads are; the two places where the code divides (the leap-frog index
    of [update] and the dragged fraction of the swipe controller) are
    computed over the rationals.  Values the DOM supplies (measured
    heights, computed styles) are explicit arguments. *)

From stdpp Require Import base option list gmap strings.
From Stdlib Require Import ZArith QArith Qround Qabs Lia.

Close Scope Q_scope.
Open Scope Z_scope.

(** ** Paging: page metrics, the two live slots, position <-> page *)

Module Paging.

(** The two render targets [this.$.page0] and [this.$.page1]. *)
Inductive Slot := page0 | page1.

#[global] Instance Slot_eq_dec : EqDecision Slot.
Proof. solve_decision. Defined.

(** What the code keeps on a render target: the rows written by
    [setContent] (row offset and row count handed to the generator; [None]
    is the empty string), the [pageNo] expando and the offset style. *)
Record SlotNode := {
  content : option (Z * Z);
  pageNo : option Z;
  boundPx : option Z
}.

Definition emptyNode : SlotNode :=
  {| content := None; pageNo := None; boundPx := None |}.

(** Measurements answered by the rendering surface. *)
Record Bounds := {
  viewportHeight : Z;                 (* this.getBounds().height *)
  renderedHeight : Slot -> Z -> Z     (* inTarget.getBounds().height *)
}.

Record List := {
  count : Z;
  rowsPerPage : Z;
  bottomUp : bool;
  fixedHeight : bool;
  rowHeight : Z;
  defaultPageHeight : Z;
  pageCount : Z;
  portSize : Z;
  scrollerHeight : Z;
  pageHeights : gmap Z Z;
  page : Z;
  p0 : option Z;
  p1 : option Z;
  node0 : SlotNode;
  node1 : SlotNode;
  portHeightPx : Z;
  generated : list (Slot * Z)          (* trace of generatePage calls *)
}.

(** *** Field updates *)

Definition set_rowHeight (v : Z) (s : List) : List :=
  {| count := count s; rowsPerPage := rowsPerPage s; bottomUp := bottomUp s;
     fixedHeight := fixedHeight s; rowHeight := v;
     defaultPageHeight := defaultPageHeight s; pageCount := pageCount s;
     portSize := portSize s; scrollerHeight := scrollerHeight s;
     pageHeights := pageHeights s; page := page s; p0 := p0 s; p1 := p1 s;
     node0 := node0 s; node1 := node1 s; portHeightPx := portHeightPx s;
     generated := generated s |}.

Definition set_metrics (d n sz : Z) (s : List) : List :=
  {| count := count s; rowsPerPage := rowsPerPage s; bottomUp := bottomUp s;
     fixedHeight := fixedHeight s; rowHeight := rowHeight s;
     defaultPageHeight := d; pageCount := n;
     portSize := sz; scrollerHeight := scrollerHeight s;
     pageHeights := pageHeights s; page := page s; p0 := p0 s; p1 := p1 s;
     node0 := node0 s; node1 := node1 s; portHeightPx := portHeightPx s;
     generated := generated s |}.

Definition set_portSize (v : Z) (s : List) : List :=
  set_metrics (defaultPageHeight s) (pageCount s) v s.

Definition set_port (sh px : Z) (s : List) : List :=
  {| count := count s; rowsPerPage := rowsPerPage s; bottomUp := bottomUp s;
     fixedHeight := fixedHeight s; rowHeight := rowHeight s;
     defaultPageHeight := defaultPageHeight s; pageCount := pageCount s;
     portSize := portSize s; scrollerHeight := sh;
     pageHeights := pageHeights s; page := page s; p0 := p0 s; p1 := p1 s;
     node0 := node0 s; node1 := node1 s; portHeightPx := px;
     generated := generated s |}.

Definition set_pageHeights (m : gmap Z Z) (s : List) : List :=
  {| count := count s; rowsPerPage := rowsPerPage s; bottomUp := bottomUp s;
     fixedHeight := fixedHeight s; rowHeight := rowHeight s;
     defaultPageHeight := defaultPageHeight s; pageCount := pageCount s;
     portSize := portSize s; scrollerHeight := scrollerHeight s;
     pageHeights := m; page := page s; p0 := p0 s; p1 := p1 s;
     node0 := node0 s; node1 := node1 s; portHeightPx := portHeightPx s;
     generated := generated s |}.

Definition set_slots (a b : option Z) (s : List) : List :=
  {| count := count s; rowsPerPage := rowsPerPage s; bottomUp := bottomUp s;
     fixedHeight := fixedHeight s; rowHeight := rowHeight s;
     defaultPageHeight := defaultPageHeight s; pageCount := pageCount s;
     portSize := portSize s; scrollerHeight := scrollerHeight s;
     pageHeights := pageHeights s; page := page s; p0 := a; p1 := b;
     node0 := node0 s; node1 := node1 s; portHeightPx := portHeightPx s;
     generated := generated s |}.

Definition set_nodes (a b : SlotNode) (s : List) : List :=
  {| count := count s; rowsPerPage := rowsPerPage s; bottomUp := bottomUp s;
     fixedHeight := fixedHeight s; rowHeight := rowHeight s;
     defaultPageHeight := defaultPageHeight s; pageCount := pageCount s;
     portSize := portSize s; scrollerHeight := scrollerHeight s;
     pageHeights := pageHeights s; page := page s; p0 := p0 s; p1 := p1 s;
     node0 := a; node1 := b; portHeightPx := portHeightPx s;
     generated := generated s |}.

Definition set_page (v : Z) (tr : list (Slot * Z)) (s : List) : List :=
  {| count := count s; rowsPerPage := rowsPerPage s; bottomUp := bottomUp s;
     fixedHeight := fixedHeight s; rowHeight := rowHeight s;
     defaultPageHeight := defaultPageHeight s; pageCount := pageCount s;
     portSize := portSize s; scrollerHeight := scrollerHeight s;
     pageHeights := pageHeights s; page := v; p0 := p0 s; p1 := p1 s;
     node0 := node0 s; node1 := node1 s; portHeightPx := portHeightPx s;
     generated := tr |}.

Definition node (t : Slot) (s : List) : SlotNode :=
  match t with page0 => node0 s | page1 => node1 s end.

Definition set_node (t : Slot) (n : SlotNode) (s : List) : List :=
  match t with
  | page0 => set_nodes n (node1 s) s
  | page1 => set_nodes (node0 s) n s
  end.

(** *** getPageHeight

    [this.pageHeights[inPageNo] || this.defaultPageHeight]: a missing
    entry and a stored 0 both fall through to the default. *)
Definition getPageHeight (s : List) (inPageNo : Z) : Z :=
  match pageHeights s !! inPageNo with
  | Some h => if h =? 0 then defaultPageHeight s else h
  | None => defaultPageHeight s
  end.

(** *** adjustPortSize *)
Definition adjustPortSize (b : Bounds) (s : List) : List :=
  let sh := viewportHeight b in
  set_port sh (Z.max sh (portSize s)) s.

(** *** updateMetrics

    [rowHeight || 100], [Math.ceil (count / rowsPerPage)] and the
    ascending loop that sums the page heights.  With [rowsPerPage = 0]
    the quotient is not a finite number; the embedding answers [None]
    there. *)
Definition ceilDiv (a b : Z) : Z := - ((- a) / b).

Definition sumPageHeights (s : List) (n : Z) : Z :=
  foldl (fun acc i => acc + getPageHeight s i) 0 (seqZ 0 n).

(** The sum of [getPageHeight q] for [q = 0 .. n-1], as a sum over the
    list of page numbers (what [portSize] and the page offsets are
    specified to be). *)
Definition heightsBelow (s : List) (n : Z) : Z :=
  foldr Z.add 0 (getPageHeight s <$> seqZ 0 n).

Definition updateMetrics (b : Bounds) (s : List) : option List :=
  if rowsPerPage s =? 0 then None
  else
    let d := rowsPerPage s * (if rowHeight s =? 0 then 100 else rowHeight s) in
    let n := ceilDiv (count s) (rowsPerPage s) in
    let s1 := set_metrics d n 0 s in
    Some (adjustPortSize b (set_portSize (sumPageHeights s1 n) s1)).

(** *** generatePage

    [Math.floor (pageHeight / rpp)] is not finite when the generator was
    handed zero rows; the embedding answers [None] there. *)
Definition recordPageHeight (inPageNo pageHeight : Z) (s : List) : List :=
  if fixedHeight s then s
  else
    let h0 := getPageHeight s inPageNo in
    if negb (h0 =? pageHeight) && (0 <? pageHeight)
    then set_portSize (portSize s + (pageHeight - h0))
           (set_pageHeights (<[inPageNo := pageHeight]> (pageHeights s)) s)
    else s.

Definition generatePage (b : Bounds) (inPageNo : Z) (inTarget : Slot)
    (s : List) : option List :=
  let s := set_page inPageNo (generated s ++ [(inTarget, inPageNo)]) s in
  let r := rowsPerPage s * page s in
  let rpp := Z.min (count s - r) (rowsPerPage s) in
  let nd := node inTarget s in
  let s := set_node inTarget
             {| content := Some (r, rpp); pageNo := pageNo nd;
                boundPx := boundPx nd |} s in
  let pageHeight := renderedHeight b inTarget inPageNo in
  s ← (if (rowHeight s =? 0) && (0 <? pageHeight)
       then if rpp =? 0 then None
            else updateMetrics b (set_rowHeight (pageHeight / rpp) s)
       else Some s);
  Some (recordPageHeight inPageNo pageHeight s).

(** *** calcPos, pageToPosition, positionToPageInfo *)
Definition calcPos (s : List) (inPos : Z) : Z :=
  if bottomUp s then portSize s - scrollerHeight s - inPos else inPos.

(** [while (p > 0) { p--; y += getPageHeight(p) }]: the counter is the
    recursion argument. *)
Fixpoint pageToPosition_loop (s : List) (p : nat) (y : Z) : Z :=
  match p with
  | O => y
  | S p' => pageToPosition_loop s p' (y + getPageHeight s (Z.of_nat p'))
  end.

Definition pageToPosition (s : List) (inPage : Z) : Z :=
  pageToPosition_loop s (Z.to_nat inPage) 0.

Record PageInfo := { no : Z; height : Z; pos : Z }.

(** [while (p >= 0) { page++; h = getPageHeight(page); p -= h }], with a
    bound on the number of iterations. *)
Fixpoint positionToPageInfo_loop (s : List) (fuel : nat) (pg p h : Z)
    : option PageInfo :=
  if 0 <=? p then
    match fuel with
    | O => None
    | S fuel' =>
        let pg' := pg + 1 in
        let h' := getPageHeight s pg' in
        positionToPageInfo_loop s fuel' pg' (p - h') h'
    end
  else Some {| no := pg; height := h; pos := p + h |}.

Definition positionToPageInfo (s : List) (fuel : nat) (inY : Z)
    : option PageInfo :=
  positionToPageInfo_loop s fuel (-1) (calcPos s inY) (defaultPageHeight s).

(** *** isPageInRange *)
Definition isPageInRange (s : List) (inPage : Z) : bool :=
  inPage =? Z.max 0 (Z.min (pageCount s - 1) inPage).

(** *** positionPage, adjustBottomPage *)
Definition pageToPositionOpt (s : List) (inPage : option Z) : Z :=
  match inPage with Some p => pageToPosition s p | None => 0 end.

Definition positionPage (inPage : option Z) (inTarget : Slot) (s : List)
    : List :=
  let nd := node inTarget s in
  set_node inTarget
    {| content := content nd; pageNo := inPage;
       boundPx := Some (pageToPositionOpt s inPage) |} s.

(** [null] compares as 0 under [>=]. *)
Definition nullAsZero (o : option Z) : Z := default 0 o.

Definition adjustBottomPage (s : List) : List :=
  let bp := if nullAsZero (p1 s) <=? nullAsZero (p0 s) then page0 else page1 in
  positionPage (pageNo (node bp s)) bp s.

(** *** update *)

(** The zone line [pi.pos + scrollerHeight/2] and the leap-frog index
    [Math.floor(pos / Math.max(pi.height, scrollerHeight) + 1/2) + pi.no].
    A zero divisor makes the index non-finite: [None]. *)
Definition leapFrog (s : List) (pi : PageInfo) : option Z :=
  let m := Z.max (height pi) (scrollerHeight s) in
  if m =? 0 then None
  else
    let zone := (inject_Z (pos pi) + inject_Z (scrollerHeight s) / 2)%Q in
    Some (Qfloor (zone / inject_Z m + (1 # 2))%Q + no pi).

Definition isEven (k : Z) : bool := Z.rem k 2 =? 0.

Definition page0Target (k : Z) : Z := if isEven k then k else k - 1.
Definition page1Target (k : Z) : Z := if isEven k then Z.max 1 (k - 1) else k.

Definition holds (cur : option Z) (p : Z) : bool :=
  match cur with Some q => q =? p | None => false end.

Definition set_p (t : Slot) (p : Z) (s : List) : List :=
  match t with
  | page0 => set_slots (Some p) (p1 s) s
  | page1 => set_slots (p0 s) (Some p) s
  end.

Definition slotPage (t : Slot) (s : List) : option Z :=
  match t with page0 => p0 s | page1 => p1 s end.

(** One of the two guarded blocks of [update]; the boolean is the
    [updated] flag. *)
Definition updateSlot (b : Bounds) (t : Slot) (p : Z) (su : List * bool)
    : option (List * bool) :=
  let s := su.1 in
  if negb (holds (slotPage t s) p) && isPageInRange s p then
    s ← generatePage b p t s;
    Some (set_p t p (positionPage (Some p) t s), true)
  else Some su.

Definition update (b : Bounds) (fuel : nat) (inScrollTop : Z) (s : List)
    : option List :=
  pi ← positionToPageInfo s fuel inScrollTop;
  match leapFrog s pi with
  | None => Some s
  | Some k =>
      su ← updateSlot b page0 (page0Target k) (s, false);
      su ← updateSlot b page1 (page1Target k) su;
      if su.2 && negb (fixedHeight su.1)
      then Some (adjustPortSize b (adjustBottomPage su.1))
      else Some su.1
  end.

Definition updateForPosition (b : Bounds) (fuel : nat) (inPos : Z) (s : List)
    : option List :=
  update b fuel (calcPos s inPos) s.

(** *** invalidatePages, invalidateMetrics *)
Definition invalidatePages (s : List) : List :=
  let clear n := {| content := None; pageNo := pageNo n; boundPx := boundPx n |} in
  set_nodes (clear (node0 s)) (clear (node1 s)) (set_slots None None s).

Definition invalidateMetrics (b : Bounds) (s : List) : option List :=
  updateMetrics b (set_rowHeight 0 (set_pageHeights ∅ s)).

(** *** Sample instances

    500 rows of 20px in pages of 50, in a 400px viewport, after
    [updateMetrics]; the same list with page 0 measured at 1200px; and
    the bottom-up variant. *)
Definition sampleBounds : Bounds :=
  {| viewportHeight := 400; renderedHeight := fun _ _ => 1000 |}.

Definition sampleList : List :=
  {| count := 500; rowsPerPage := 50; bottomUp := false; fixedHeight := false;
     rowHeight := 20; defaultPageHeight := 1000; pageCount := 10;
     portSize := 10000; scrollerHeight := 400; pageHeights := ∅; page := 0;
     p0 := None; p1 := None; node0 := emptyNode; node1 := emptyNode;
     portHeightPx := 10000; generated := [] |}.

Definition measuredList : List :=
  set_portSize 10200 (set_pageHeights {[ 0 := 1200 ]} sampleList).

Definition fixedList : List :=
  {| count := 500; rowsPerPage := 50; bottomUp := false; fixedHeight := true;
     rowHeight := 20; defaultPageHeight := 1000; pageCount := 10;
     portSize := 10000; scrollerHeight := 400; pageHeights := ∅; page := 0;
     p0 := None; p1 := None; node0 := emptyNode; node1 := emptyNode;
     portHeightPx := 10000; generated := [] |}.

Definition bottomUpList : List :=
  {| count := 500; rowsPerPage := 50; bottomUp := true; fixedHeight := false;
     rowHeight := 20; defaultPageHeight := 1000; pageCount := 10;
     portSize := 10000; scrollerHeight := 400; pageHeights := ∅; page := 0;
     p0 := None; p1 := None; node0 := emptyNode; node1 := emptyNode;
     portHeightPx := 10000; generated := [] |}.

(** The target of slot [page1] in the words of the specification: the
    odd-valued candidate among [k] and [k-1], clamped to page 0 minimum. *)
Definition oddCandidate (k : Z) : Z := if Z.odd k then k else k - 1.
Definition page1TargetClampedAtZero (k : Z) : Z := Z.max 0 (oddCandidate k).

(** Fields that only [update] and [generatePage] themselves write. *)
Definition sameSlots (s s' : List) : Prop :=
  p0 s' = p0 s ∧ p1 s' = p1 s ∧ node0 s' = node0 s ∧ node1 s' = node1 s
  ∧ generated s' = generated s
  ∧ count s' = count s ∧ rowsPerPage s' = rowsPerPage s.

(** [pageCount] and [portSize] are up to date: what [updateMetrics]
    leaves behind and the incremental repair of [generatePage] keeps. *)
Definition metricsInv (s : List) : Prop :=
  rowsPerPage s ≠ 0
  ∧ pageCount s = ceilDiv (count s) (rowsPerPage s)
  ∧ portSize s = heightsBelow s (pageCount s).

(** The page metrics and the settings they are computed from agree. *)
Definition sameHeights (s s' : List) : Prop :=
  pageHeights s' = pageHeights s
  ∧ defaultPageHeight s' = defaultPageHeight s
  ∧ portSize s' = portSize s
  ∧ pageCount s' = pageCount s
  ∧ count s' = count s
  ∧ rowsPerPage s' = rowsPerPage s
  ∧ fixedHeight s' = fixedHeight s
  ∧ bottomUp s' = bottomUp s.

(** Everything the position <-> page arithmetic of [update] reads
    agrees. *)
Definition untouched (s s' : List) : Prop :=
  sameHeights s s'
  ∧ rowHeight s' = rowHeight s
  ∧ scrollerHeight s' = scrollerHeight s.

(** Slot [page0] holds an even page, slot [page1] an odd one, neither a
    negative one. *)
Definition slotsAlternate (s : List) : Prop :=
  (∀ p, p0 s = Some p → Z.even p = true ∧ 0 ≤ p)
  ∧ (∀ p, p1 s = Some p → Z.odd p = true ∧ 1 ≤ p).

(** Every cached measurement is positive. *)
Definition cachePositive (s : List) : Prop :=
  map_Forall (fun _ h => 0 < h) (pageHeights s).

(** A freshly reset list of 100 rows: no row height known yet, every
    page estimated at 50 * 100px; its first page renders at 1000px. *)
Definition freshBounds : Bounds :=
  {| viewportHeight := 400; renderedHeight := fun _ _ => 1000 |}.

Definition freshList : List :=
  {| count := 100; rowsPerPage := 50; bottomUp := false; fixedHeight := false;
     rowHeight := 0; defaultPageHeight := 5000; pageCount := 2;
     portSize := 10000; scrollerHeight := 400; pageHeights := ∅; page := 0;
     p0 := None; p1 := None; node0 := emptyNode; node1 := emptyNode;
     portHeightPx := 10000; generated := [] |}.

(** A freshly reset list of 75 rows whose pages render at 500px: the
    last page (25 rows) gives a row height of 20px. *)
Definition shortBounds : Bounds :=
  {| viewportHeight := 400; renderedHeight := fun _ _ => 500 |}.

Definition shortList : List :=
  {| count := 75; rowsPerPage := 50; bottomUp := false; fixedHeight := false;
     rowHeight := 0; defaultPageHeight := 5000; pageCount := 2;
     portSize := 10000; scrollerHeight := 400; pageHeights := ∅; page := 0;
     p0 := None; p1 := None; node0 := emptyNode; node1 := emptyNode;
     portHeightPx := 10000; generated := [] |}.

(** A freshly reset list with no rows; an empty page renders at 0px. *)
Definition emptyBounds : Bounds :=
  {| viewportHeight := 400; renderedHeight := fun _ _ => 0 |}.

Definition emptyList : List :=
  {| count := 0; rowsPerPage := 50; bottomUp := false; fixedHeight := false;
     rowHeight := 0; defaultPageHeight := 5000; pageCount := 0;
     portSize := 0; scrollerHeight := 400; pageHeights := ∅; page := 0;
     p0 := None; p1 := None; node0 := emptyNode; node1 := emptyNode;
     portHeightPx := 400; generated := [] |}.

End Paging.

(** ** Swipe: the gesture controller of the per-row action panel *)

Module Swipe.

(** Side the persisting panel came from (["left"] / ["right"]). *)
Inductive Side := sideLeft | sideRight.

#[global] Instance Side_eq_dec : EqDecision Side.
Proof. solve_decision. Defined.

(** A number read back with [parseInt]: [None] is [NaN]. *)
Abbreviation num := (option Z).

(** Duration written into the [-webkit-transition] style.  The code reads
    [this.normalSwipeSpeedSecs], a field the kind never defines, in
    [bounceItem] and [slideAwayItem]: that is [secsUndefined]. *)
Inductive Secs := secs (q : Q) | secsUndefined.

Definition completeSwipeDelayMS : Z := 150.
Definition normalSwipeSpeed : Q := 2 # 10.
Definition fastSwipeSpeed : Q := 1 # 10.
Definition percentageDraggedThreshold : Q := 2 # 10.
Definition normalSwipeSpeedSecs : Secs := secsUndefined.

(** Gesture and transition-end events share one record, as the event
    objects do; [None] is a property the event does not carry. *)
Record Event := {
  index : option Z;
  xDirection : option Z;
  dx : Z;
  ddx : Z;
  xVelocity : Q;
  yVelocity : Q;
  vertical : bool;
  originatorName : string
}.

Definition with_index_dir (i : option Z) (d : option Z) (e : Event) : Event :=
  {| index := i; xDirection := d; dx := dx e; ddx := ddx e;
     xVelocity := xVelocity e; yVelocity := yVelocity e;
     vertical := vertical e; originatorName := originatorName e |}.

(** Events the kind declares.  Only [doSetupSwipeItem] and
    [doSwipeComplete] are ever called by the code. *)
Inductive Signal :=
  | onSetupItem (i : Z)
  | onSetupSwipeItem (e : Event)
  | onSwipeDrag (e : Event)
  | onSwipe (e : Event)
  | onSwipeComplete (e : Event).

(** Styles and visibility of [this.$.swipeableComponents]. *)
Record Panel := {
  showing : bool;
  topPx : Z;
  boxPx : option (Z * Z);          (* width and height styles *)
  translateX : num;                (* x of the translate3d style *)
  transition : Secs
}.

(** What the rendering surface answers while a handler runs. *)
Record RowBox := { rowTop : Z; rowWidth : Z; rowHeightPx : Z }.

Record Dom := {
  fetchRowNode : option Z -> option RowBox;
  panelWidth : num;       (* parseInt(getComputedStyle(panel).width) *)
  panelX : num            (* parseInt(computed webkitTransform.split(",")[4]) *)
}.

Record State := {
  enableSwipe : bool;
  persistSwipeableItem : bool;
  swipeableControls : nat;
  swipeIndex : option Z;
  swipeDirection : option Z;
  persistentItemVisisble : bool;
  persistentItemOrigin : option Side;
  swipeComplete : bool;
  completeSwipeTimeout : option positive;
  flicked : bool;
  panel : Panel;
  timers : list (positive * Event);   (* armed and not yet fired or cleared *)
  nextTimer : positive;
  emitted : list Signal
}.

(** *** Field updates *)

Definition setPersistSwipeableItem (v : bool) (s : State) : State :=
  {| enableSwipe := enableSwipe s; persistSwipeableItem := v;
     swipeableControls := swipeableControls s; swipeIndex := swipeIndex s;
     swipeDirection := swipeDirection s;
     persistentItemVisisble := persistentItemVisisble s;
     persistentItemOrigin := persistentItemOrigin s;
     swipeComplete := swipeComplete s;
     completeSwipeTimeout := completeSwipeTimeout s; flicked := flicked s;
     panel := panel s; timers := timers s; nextTimer := nextTimer s;
     emitted := emitted s |}.

Definition set_swipeIndex (v : option Z) (s : State) : State :=
  {| enableSwipe := enableSwipe s;
     persistSwipeableItem := persistSwipeableItem s;
     swipeableControls := swipeableControls s; swipeIndex := v;
     swipeDirection := swipeDirection s;
     persistentItemVisisble := persistentItemVisisble s;
     persistentItemOrigin := persistentItemOrigin s;
     swipeComplete := swipeComplete s;
     completeSwipeTimeout := completeSwipeTimeout s; flicked := flicked s;
     panel := panel s; timers := timers s; nextTimer := nextTimer s;
     emitted := emitted s |}.

Definition setSwipeDirection (v : option Z) (s : State) : State :=
  {| enableSwipe := enableSwipe s;
     persistSwipeableItem := persistSwipeableItem s;
     swipeableControls := swipeableControls s; swipeIndex := swipeIndex s;
     swipeDirection := v;
     persistentItemVisisble := persistentItemVisisble s;
     persistentItemOrigin := persistentItemOrigin s;
     swipeComplete := swipeComplete s;
     completeSwipeTimeout := completeSwipeTimeout s; flicked := flicked s;
     panel := panel s; timers := timers s; nextTimer := nextTimer s;
     emitted := emitted s |}.

Definition set_persistentItemVisisble (v : bool) (s : State) : State :=
  {| enableSwipe := enableSwipe s;
     persistSwipeableItem := persistSwipeableItem s;
     swipeableControls := swipeableControls s; swipeIndex := swipeIndex s;
     swipeDirection := swipeDirection s;
     persistentItemVisisble := v;
     persistentItemOrigin := persistentItemOrigin s;
     swipeComplete := swipeComplete s;
     completeSwipeTimeout := completeSwipeTimeout s; flicked := flicked s;
     panel := panel s; timers := timers s; nextTimer := nextTimer s;
     emitted := emitted s |}.

Definition set_persistentItemOrigin (v : option Side) (s : State) : State :=
  {| enableSwipe := enableSwipe s;
     persistSwipeableItem := persistSwipeableItem s;
     swipeableControls := swipeableControls s; swipeIndex := swipeIndex s;
     swipeDirection := swipeDirection s;
     persistentItemVisisble := persistentItemVisisble s;
     persistentItemOrigin := v;
     swipeComplete := swipeComplete s;
     completeSwipeTimeout := completeSwipeTimeout s; flicked := flicked s;
     panel := panel s; timers := timers s; nextTimer := nextTimer s;
     emitted := emitted s |}.

Definition setSwipeComplete (v : bool) (s : State) : State :=
  {| enableSwipe := enableSwipe s;
     persistSwipeableItem := persistSwipeableItem s;
     swipeableControls := swipeableControls s; swipeIndex := swipeIndex s;
     swipeDirection := swipeDirection s;
     persistentItemVisisble := persistentItemVisisble s;
     persistentItemOrigin := persistentItemOrigin s;
     swipeComplete := v;
     completeSwipeTimeout := completeSwipeTimeout s; flicked := flicked s;
     panel := panel s; timers := timers s; nextTimer := nextTimer s;
     emitted := emitted s |}.

Definition setFlicked (v : bool) (s : State) : State :=
  {| enableSwipe := enableSwipe s;
     persistSwipeableItem := persistSwipeableItem s;
     swipeableControls := swipeableControls s; swipeIndex := swipeIndex s;
     swipeDirection := swipeDirection s;
     persistentItemVisisble := persistentItemVisisble s;
     persistentItemOrigin := persistentItemOrigin s;
     swipeComplete := swipeComplete s;
     completeSwipeTimeout := completeSwipeTimeout s; flicked := v;
     panel := panel s; timers := timers s; nextTimer := nextTimer s;
     emitted := emitted s |}.

Definition set_panel (v : Panel) (s : State) : State :=
  {| enableSwipe := enableSwipe s;
     persistSwipeableItem := persistSwipeableItem s;
     swipeableControls := swipeableControls s; swipeIndex := swipeIndex s;
     swipeDirection := swipeDirection s;
     persistentItemVisisble := persistentItemVisisble s;
     persistentItemOrigin := persistentItemOrigin s;
     swipeComplete := swipeComplete s;
     completeSwipeTimeout := completeSwipeTimeout s; flicked := flicked s;
     panel := v; timers := timers s; nextTimer := nextTimer s;
     emitted := emitted s |}.

Definition set_timer (h : option positive) (ts : list (positive * Event))
    (n : positive) (s : State) : State :=
  {| enableSwipe := enableSwipe s;
     persistSwipeableItem := persistSwipeableItem s;
     swipeableControls := swipeableControls s; swipeIndex := swipeIndex s;
     swipeDirection := swipeDirection s;
     persistentItemVisisble := persistentItemVisisble s;
     persistentItemOrigin := persistentItemOrigin s;
     swipeComplete := swipeComplete s;
     completeSwipeTimeout := h; flicked := flicked s;
     panel := panel s; timers := ts; nextTimer := n;
     emitted := emitted s |}.

Definition emit (sg : Signal) (s : State) : State :=
  {| enableSwipe := enableSwipe s;
     persistSwipeableItem := persistSwipeableItem s;
     swipeableControls := swipeableControls s; swipeIndex := swipeIndex s;
     swipeDirection := swipeDirection s;
     persistentItemVisisble := persistentItemVisisble s;
     persistentItemOrigin := persistentItemOrigin s;
     swipeComplete := swipeComplete s;
     completeSwipeTimeout := completeSwipeTimeout s; flicked := flicked s;
     panel := panel s; timers := timers s; nextTimer := nextTimer s;
     emitted := emitted s ++ [sg] |}.

(** *** Panel style writes *)

Definition setShowing (v : bool) (s : State) : State :=
  let p := panel s in
  set_panel {| showing := v; topPx := topPx p; boxPx := boxPx p;
               translateX := translateX p; transition := transition p |} s.

Definition applyTransform (x : num) (s : State) : State :=
  let p := panel s in
  set_panel {| showing := showing p; topPx := topPx p; boxPx := boxPx p;
               translateX := x; transition := transition p |} s.

Definition applyTransition (t : Secs) (s : State) : State :=
  let p := panel s in
  set_panel {| showing := showing p; topPx := topPx p; boxPx := boxPx p;
               translateX := translateX p; transition := t |} s.

(** [-1 * parseInt(w)]: negation keeps [NaN]. *)
Definition negNum (w : num) : num := Z.opp <$> w.

(** [a + dx] with a [NaN]-able left operand. *)
Definition addNum (a : num) (d : Z) : num := (fun z => z + d) <$> a.

(** [xDirection == 1]. *)
Definition isOne (d : option Z) : bool :=
  match d with Some z => z =? 1 | None => false end.

(** *** Small accessors *)

Definition hasSwipeableComponents (s : State) : bool :=
  negb (Nat.eqb (swipeableControls s) 0).

Definition wasFlicked (s : State) : bool := flicked s.

Definition swipeIndexChanged (i : option Z) (s : State) : bool :=
  match swipeIndex s with
  | None => true
  | Some cur => match i with None => false | Some j => negb (j =? cur) end
  end.

Definition setSwipeIndex (i : option Z) (s : State) : State :=
  set_swipeIndex (match i with None => swipeIndex s | Some _ => i end) s.

Definition setPersistentItemOrigin (d : option Z) (s : State) : State :=
  set_persistentItemOrigin
    (Some (if isOne d then sideLeft else sideRight)) s.

(** *** positionSwipeableContainer *)
Definition positionSwipeableContainer (dm : Dom) (i : option Z)
    (d : option Z) (s : State) : State :=
  match fetchRowNode dm i with
  | None => s
  | Some nd =>
      let x := if isOne d then - rowWidth nd else rowWidth nd in
      let p := panel s in
      set_panel {| showing := showing p; topPx := rowTop nd;
                   boxPx := Some (rowWidth nd, rowHeightPx nd);
                   translateX := Some x; transition := transition p |} s
  end.

(** *** calcNewDragPosition, dragSwipeableComponents *)
Definition calcNewDragPosition (dm : Dom) (d : Z) (s : State) : num :=
  let xPos := panelX dm in
  let w := panelWidth dm in
  let toRight := isOne (swipeDirection s) in
  let xlimit := if toRight then negNum w else w in
  let moved := addNum xPos d in
  match moved, xlimit with
  | Some m, Some l =>
      if toRight then (if m <? l then xlimit else moved)
      else (if l <? m then xlimit else moved)
  | _, _ => moved
  end.

Definition dragSwipeableComponents (x : num) (s : State) : State :=
  applyTransform x s.

(** *** startSwipe *)
Definition startSwipe (dm : Dom) (e : Event) (s : State) : State :=
  let s := positionSwipeableContainer dm (swipeIndex s) (xDirection e) s in
  let s := setShowing true s in
  let s := setPersistentItemOrigin (xDirection e) s in
  emit (onSetupSwipeItem e) s.

(** *** dragPersistentItem *)
Definition dragPersistentItem (e : Event) (s : State) : State :=
  let xPos := 0 in
  let x := if decide (persistentItemOrigin s = Some sideRight)
           then Z.max xPos (xPos + dx e) else Z.min xPos (xPos + dx e) in
  applyTransform (Some x) s.

(** *** calcPercentageDragged

    [Math.abs(dx / parseInt(width))]: a rational, [Infinity] for a
    non-zero [dx] over width 0, [NaN] for 0/0 or an unparsable width. *)
Inductive Fraction := frac (q : Q) | fracInfinity | fracNaN.

Definition calcPercentageDragged (dm : Dom) (d : Z) : Fraction :=
  match panelWidth dm with
  | None => fracNaN
  | Some w =>
      if w =? 0 then (if d =? 0 then fracNaN else fracInfinity)
      else frac (Qabs (inject_Z d / inject_Z w))
  end.

Definition Qltb (x y : Q) : bool :=
  match (x ?= y)%Q with Lt => true | _ => false end.

(** [fraction > threshold]. *)
Definition exceeds (f : Fraction) (t : Q) : bool :=
  match f with
  | frac q => Qltb t q
  | fracInfinity => true
  | fracNaN => false
  end.

(** *** swipeItem, swipe, backOutSwipe, bounceItem, slideAwayItem *)
Definition swipeItem (x : num) (t : Secs) (e : Event) (s : State) : State :=
  applyTransform x (applyTransition t s).

Definition swipe (e : Event) (speed : Q) (s : State) : State :=
  swipeItem (Some 0) (secs speed) e (setSwipeComplete true s).

Definition backOutSwipe (dm : Dom) (e : Event) (s : State) : State :=
  let w := panelWidth dm in
  let x := if isOne (swipeDirection s) then negNum w else w in
  swipeItem x (secs (1 # 10)) e s.

(** [parseInt(...) != 0]: [NaN] differs from 0. *)
Definition bounceItem (dm : Dom) (e : Event) (s : State) : State :=
  match panelX dm with
  | Some 0 => s
  | _ => swipeItem (Some 0) normalSwipeSpeedSecs e s
  end.

Definition slideAwayItem (dm : Dom) (s : State) : State :=
  let w := panelWidth dm in
  let xPos := if decide (persistentItemOrigin s = Some sideRight)
              then w else negNum w in
  let s := applyTransition normalSwipeSpeedSecs s in
  let s := applyTransform xPos s in
  let s := set_persistentItemVisisble false s in
  setPersistSwipeableItem false s.

Definition resetSwipeableTransitionTime (s : State) : State :=
  applyTransition (secs 0) s.

Definition clearSwipeables (s : State) : State :=
  let s := setShowing false s in
  let s := set_persistentItemVisisble false s in
  setPersistSwipeableItem false s.

(** *** dragFinishPersistentItem, flickPersistentItem *)
Definition dragFinishPersistentItem (dm : Dom) (e : Event) (s : State)
    : State :=
  let completeSwipe := exceeds (calcPercentageDragged dm (dx e)) (2 # 10) in
  let dir := if 0 <? dx e then Some sideRight
             else if dx e <? 0 then Some sideLeft else None in
  if decide (persistentItemOrigin s = dir) then
    if completeSwipe then slideAwayItem dm s else bounceItem dm e s
  else bounceItem dm e s.

Definition flickPersistentItem (dm : Dom) (e : Event) (s : State) : State :=
  if Qltb 0 (xVelocity e) then
    if decide (persistentItemOrigin s = Some sideLeft)
    then bounceItem dm e s else slideAwayItem dm s
  else if Qltb (xVelocity e) 0 then
    if decide (persistentItemOrigin s = Some sideRight)
    then bounceItem dm e s else slideAwayItem dm s
  else s.

(** *** Timers: setTimeout / clearTimeout

    Handles are positive, so a stored handle is always truthy. *)
Definition setTimeout (e : Event) (s : State) : State :=
  let id := nextTimer s in
  set_timer (Some id) (timers s ++ [(id, e)]) (Pos.succ id) s.

Definition clearTimeout (id : positive) (s : State) : State :=
  set_timer (completeSwipeTimeout s)
    (filter (fun t => t.1 ≠ id) (timers s)) (nextTimer s) s.

(** *** transitionComplete *)
Definition transitionComplete (e : Event) (s : State) : State :=
  if negb (String.eqb (originatorName e) "swipeableComponents"%string) then s
  else setTimeout e s.

(** *** completeSwipe

    The event object is written to ([xDirection], [index]); the written
    object is returned next to the state. *)
Definition completeSwipe (e : Event) (s : State) : Event * State :=
  let s := match completeSwipeTimeout s with
           | Some id =>
               let s := clearTimeout id s in
               set_timer None (timers s) (nextTimer s) s
           | None => s
           end in
  let e := with_index_dir
             (match index e with None => swipeIndex s | Some _ => index e end)
             (swipeDirection s) e in
  let s := setSwipeDirection None s in
  let s := resetSwipeableTransitionTime s in
  if negb (persistSwipeableItem s) then
    let s := setShowing false s in
    (e, if swipeComplete s then emit (onSwipeComplete e) s else s)
  else (e, set_persistentItemVisisble true s).

(** *** dragstart, drag, flick, dragfinish *)
Definition dragstart (dm : Dom) (e : Event) (s : State) : State :=
  if negb (hasSwipeableComponents s) || vertical e then s
  else
    let s := setSwipeDirection (xDirection e) s in
    let '(e, s) := match completeSwipeTimeout s with
                   | Some _ => completeSwipe e s
                   | None => (e, s)
                   end in
    let s := setFlicked false s in
    let s := setSwipeComplete false s in
    let s := if swipeIndexChanged (index e) s
             then setSwipeIndex (index e) (clearSwipeables s) else s in
    if negb (persistentItemVisisble s) then startSwipe dm e s else s.

Definition drag (dm : Dom) (e : Event) (s : State) : State :=
  if negb (enableSwipe s) then s
  else if persistentItemVisisble s then dragPersistentItem e s
  else dragSwipeableComponents (calcNewDragPosition dm (ddx e) s) s.

Definition flick (dm : Dom) (e : Event) (s : State) : State :=
  if negb (enableSwipe s) then s
  else if Qltb (Qabs (xVelocity e)) (Qabs (yVelocity e)) then s
  else
    let s := setFlicked true s in
    if persistentItemVisisble s then flickPersistentItem dm e s
    else swipe e normalSwipeSpeed s.

Definition dragfinish (dm : Dom) (e : Event) (s : State) : State :=
  if negb (enableSwipe s) then s
  else if wasFlicked s then s
  else if persistentItemVisisble s then dragFinishPersistentItem dm e s
  else if exceeds (calcPercentageDragged dm (dx e)) percentageDraggedThreshold
  then swipe e fastSwipeSpeed s
  else backOutSwipe dm e s.

(** *** The event loop

    What can reach a list instance: the handled events, a pending timer
    coming due, and the application setting the published option. *)
Inductive Input :=
  | DragStart (dm : Dom) (e : Event)
  | Drag (dm : Dom) (e : Event)
  | Flick (dm : Dom) (e : Event)
  | DragFinish (dm : Dom) (e : Event)
  | TransitionEnd (e : Event)
  | TimerFires (id : positive)
  | AppSetPersist (v : bool).

(** A timer that comes due leaves the pending set and runs its closure;
    an id that is not pending fires nothing. *)
Definition fireTimer (id : positive) (s : State) : State :=
  match list_find (fun t => t.1 = id) (timers s) with
  | Some (_, (_, e)) =>
      let s := set_timer (completeSwipeTimeout s)
                 (filter (fun t => t.1 ≠ id) (timers s)) (nextTimer s) s in
      (completeSwipe e s).2
  | None => s
  end.

Definition step (s : State) (i : Input) : State :=
  match i with
  | DragStart dm e => dragstart dm e s
  | Drag dm e => drag dm e s
  | Flick dm e => flick dm e s
  | DragFinish dm e => dragfinish dm e s
  | TransitionEnd e => transitionComplete e s
  | TimerFires id => fireTimer id s
  | AppSetPersist v => setPersistSwipeableItem v s
  end.

Definition run (s : State) (ins : list Input) : State := foldl step s ins.

(** Number of completion timers armed and still pending. *)
Definition liveTimers (s : State) : nat := length (timers s).

(** *** Directions

    Screen x grows to the right: a positive velocity or delta moves
    toward the right side, a negative one toward the left side. *)
Definition opposite (o : Side) : Side :=
  match o with sideLeft => sideRight | sideRight => sideLeft end.

Definition flickSide (e : Event) : option Side :=
  if Qltb 0 (xVelocity e) then Some sideRight
  else if Qltb (xVelocity e) 0 then Some sideLeft else None.


(** No [onSwipe] among the signals emitted so far. *)
Definition isOnSwipe (sg : Signal) : bool :=
  match sg with onSwipe _ => true | _ => false end.

Definition neverSwiped (s : State) : Prop :=
  forallb (fun sg => negb (isOnSwipe sg)) (emitted s) = true.

(** The two signals the handlers fire. *)
Definition isLifecycle (sg : Signal) : bool :=
  match sg with
  | onSetupSwipeItem _ | onSwipeComplete _ => true
  | _ => false
  end.

Definition isDragStart (i : Input) : bool :=
  match i with DragStart _ _ => true | _ => false end.

(** The pending timers are exactly the one whose handle is stored. *)
Definition tidyTimers (s : State) : Prop :=
  (timers s).*1
  = match completeSwipeTimeout s with Some id => [id] | None => [] end.

(** No transition-end of the panel arrives while a handle is stored. *)
Definition spaced (s : State) (i : Input) : Prop :=
  match i with
  | TransitionEnd e =>
      originatorName e = "swipeableComponents"%string →
      completeSwipeTimeout s = None
  | _ => True
  end.

Fixpoint wellSpaced (s : State) (ins : list Input) : Prop :=
  match ins with
  | [] => True
  | i :: rest => spaced s i ∧ wellSpaced (step s i) rest
  end.

(** Timer ids are handed out in increasing order, pending ids are
    distinct, and a stored handle names a pending timer. *)
Definition timerInv (s : State) : Prop :=
  NoDup (timers s).*1
  ∧ Forall (fun id => (id < nextTimer s)%positive) (timers s).*1
  ∧ ∀ id, completeSwipeTimeout s = Some id → id ∈ (timers s).*1.

(** The published option is off and no panel persists. *)
Definition dismissed (s : State) : Prop :=
  persistSwipeableItem s = false ∧ persistentItemVisisble s = false.

(** Inputs by which the application switches the published option on. *)
Definition reenables (i : Input) : bool :=
  match i with AppSetPersist v => v | _ => false end.

(** *** Sample instances *)

Definition initialPanel : Panel :=
  {| showing := true; topPx := -1000; boxPx := None; translateX := None;
     transition := secs 0 |}.

(** A list with one swipeable component, swiping enabled, nothing swiped
    yet. *)
Definition idleState : State :=
  {| enableSwipe := true; persistSwipeableItem := false;
     swipeableControls := 1; swipeIndex := None; swipeDirection := None;
     persistentItemVisisble := false; persistentItemOrigin := None;
     swipeComplete := false; completeSwipeTimeout := None; flicked := false;
     panel := initialPanel; timers := []; nextTimer := 1%positive;
     emitted := [] |}.

(** Row 3 being dragged to the left: the 100px panel came in from the
    right and sits at 79px (or 81px). *)
Definition draggingPanel (x : Z) : Panel :=
  {| showing := true; topPx := 60; boxPx := Some (100, 20);
     translateX := Some x; transition := secs 0 |}.

Definition draggingState (x : Z) : State :=
  {| enableSwipe := true; persistSwipeableItem := false;
     swipeableControls := 1; swipeIndex := Some 3;
     swipeDirection := Some (-1);
     persistentItemVisisble := false; persistentItemOrigin := Some sideRight;
     swipeComplete := false; completeSwipeTimeout := None; flicked := false;
     panel := draggingPanel x; timers := []; nextTimer := 1%positive;
     emitted := [] |}.

(** A panel that came from side [o] and persists, fully open. *)
Definition persistentState (o : Side) : State :=
  {| enableSwipe := true; persistSwipeableItem := true;
     swipeableControls := 1; swipeIndex := Some 3;
     swipeDirection := Some (-1);
     persistentItemVisisble := true; persistentItemOrigin := Some o;
     swipeComplete := false; completeSwipeTimeout := None; flicked := false;
     panel := draggingPanel 0; timers := []; nextTimer := 1%positive;
     emitted := [] |}.

(** The idle list with swiping switched off. *)
Definition disabledState : State :=
  {| enableSwipe := false; persistSwipeableItem := false;
     swipeableControls := 1; swipeIndex := None; swipeDirection := None;
     persistentItemVisisble := false; persistentItemOrigin := None;
     swipeComplete := false; completeSwipeTimeout := None; flicked := false;
     panel := initialPanel; timers := []; nextTimer := 1%positive;
     emitted := [] |}.

Definition sampleDom (x : Z) : Dom :=
  {| fetchRowNode := fun _ =>
       Some {| rowTop := 60; rowWidth := 100; rowHeightPx := 20 |};
     panelWidth := Some 100; panelX := Some x |}.

Definition gesture (d : Z) (v : Q) : Event :=
  {| index := Some 3; xDirection := Some (if 0 <? d then 1 else -1);
     dx := d; ddx := d; xVelocity := v; yVelocity := 0;
     vertical := false; originatorName := "row" |}.

Definition panelTransitionEnd : Event :=
  {| index := None; xDirection := None; dx := 0; ddx := 0;
     xVelocity := 0; yVelocity := 0; vertical := false;
     originatorName := "swipeableComponents" |}.

End Swipe.

(** ** Properties of the paging engine *)

Module PagingProofs.
Import Paging.

(** *** Sums of page heights *)

Lemma foldr_add_acc (l : list Z) (a : Z) :
  foldr Z.add a l = foldr Z.add 0 l + a.
Proof. induction l as [|x l IH]; simpl; lia. Qed.

Lemma heightsBelow_nonpos s n : n ≤ 0 → heightsBelow s n = 0.
Proof. intros Hn. unfold heightsBelow. by rewrite seqZ_nil. Qed.

Lemma heightsBelow_S s (i : nat) :
  heightsBelow s (Z.of_nat (S i))
  = heightsBelow s (Z.of_nat i) + getPageHeight s (Z.of_nat i).
Proof.
  unfold heightsBelow. rewrite seqZ_S, fmap_app, foldr_app. simpl.
  rewrite foldr_add_acc, Z.add_0_l. lia.
Qed.

Lemma heightsBelow_succ s n :
  0 ≤ n → heightsBelow s (n + 1) = heightsBelow s n + getPageHeight s n.
Proof.
  intros Hn. rewrite <- (Z2Nat.id n) by done.
  replace (Z.of_nat (Z.to_nat n) + 1) with (Z.of_nat (S (Z.to_nat n))) by lia.
  apply heightsBelow_S.
Qed.

Lemma sumPageHeights_heightsBelow s n : sumPageHeights s n = heightsBelow s n.
Proof.
  destruct (decide (n ≤ 0)) as [Hn|Hn].
  - unfold sumPageHeights. rewrite heightsBelow_nonpos, seqZ_nil; done.
  - rewrite <- (Z2Nat.id n) by lia. generalize (Z.to_nat n) as i. clear.
    induction i as [|i IH]; [done|].
    rewrite heightsBelow_S, <- IH. unfold sumPageHeights.
    by rewrite seqZ_S, foldl_snoc.
Qed.

Lemma pageToPosition_loop_sum s (p : nat) y :
  pageToPosition_loop s p y = y + heightsBelow s (Z.of_nat p).
Proof.
  revert y. induction p as [|p IH]; intros y.
  - simpl. rewrite heightsBelow_nonpos; lia.
  - cbn [pageToPosition_loop]. rewrite IH, heightsBelow_S. lia.
Qed.

Lemma pageToPosition_sum s p : pageToPosition s p = heightsBelow s p.
Proof.
  unfold pageToPosition. rewrite pageToPosition_loop_sum.
  destruct (decide (p ≤ 0)) as [Hp|Hp].
  - rewrite (heightsBelow_nonpos s p) by done.
    replace (Z.to_nat p) with O by lia. rewrite heightsBelow_nonpos; lia.
  - rewrite Z2Nat.id by lia. lia.
Qed.

Section PositiveHeights.
Variable s : List.
Hypothesis Hpos : ∀ q, 0 < getPageHeight s q.

Lemma heightsBelow_mono_nat a (d : nat) :
  0 ≤ a → heightsBelow s a + Z.of_nat d ≤ heightsBelow s (a + Z.of_nat d).
Proof.
  intros Ha. induction d as [|d IH].
  - replace (a + Z.of_nat 0) with a by lia. lia.
  - replace (a + Z.of_nat (S d)) with (a + Z.of_nat d + 1) by lia.
    rewrite heightsBelow_succ by lia.
    pose proof (Hpos (a + Z.of_nat d)). lia.
Qed.

Lemma heightsBelow_lt a b :
  0 ≤ a → a < b → heightsBelow s a < heightsBelow s b.
Proof.
  intros Ha Hab.
  pose proof (heightsBelow_mono_nat a (Z.to_nat (b - a)) Ha) as H.
  rewrite Z2Nat.id in H by lia. replace (a + (b - a)) with b in H by lia.
  lia.
Qed.

Lemma heightsBelow_le a b :
  0 ≤ a → a ≤ b → heightsBelow s a ≤ heightsBelow s b.
Proof.
  intros Ha Hab. destruct (decide (a = b)) as [->|]; [lia|].
  pose proof (heightsBelow_lt a b). lia.
Qed.

Lemma heightsBelow_ge_index n : 0 ≤ n → n ≤ heightsBelow s n.
Proof.
  intros Hn.
  pose proof (heightsBelow_mono_nat 0 (Z.to_nat n) ltac:(lia)) as H.
  rewrite Z2Nat.id in H by lia.
  rewrite (heightsBelow_nonpos s 0), !Z.add_0_l in H by lia. exact H.
Qed.

(** The walk of [positionToPageInfo], started below page [pg + 1] with
    [p] left, stops on the page whose extent contains [p]. *)
Lemma positionToPageInfo_loop_spec fuel pg p h :
  -1 ≤ pg → 0 ≤ p → (Z.to_nat p < fuel)%nat →
  ∃ n, pg < n
    ∧ positionToPageInfo_loop s fuel pg p h
      = Some {| no := n; height := getPageHeight s n;
                pos := p - (heightsBelow s n - heightsBelow s (pg + 1)) |}
    ∧ heightsBelow s n - heightsBelow s (pg + 1) ≤ p
    ∧ p < heightsBelow s (n + 1) - heightsBelow s (pg + 1).
Proof.
  revert pg p h. induction fuel as [|fuel IH]; intros pg p h Hpg Hp Hf.
  { lia. }
  cbn [positionToPageInfo_loop].
  destruct (Z.leb_spec 0 p) as [_|?]; [|lia].
  pose proof (Hpos (pg + 1)) as Hh.
  destruct (decide (0 ≤ p - getPageHeight s (pg + 1))) as [Hge|Hlt].
  - destruct (IH (pg + 1) (p - getPageHeight s (pg + 1))
                (getPageHeight s (pg + 1))) as (n & Hn & Heq & Hlo & Hhi);
      [lia|lia|lia|].
    exists n. rewrite Heq.
    rewrite (heightsBelow_succ s (pg + 1)) in * by lia.
    split; [lia|]. split; [|lia]. do 2 f_equal. lia.
  - exists (pg + 1). split; [lia|].
    rewrite (heightsBelow_succ s (pg + 1)) by lia.
    destruct fuel as [|fuel]; cbn [positionToPageInfo_loop];
      (destruct (Z.leb_spec 0 (p - getPageHeight s (pg + 1))); [lia|]);
      (split; [do 2 f_equal; lia | lia]).
Qed.

Lemma positionToPageInfo_spec fuel inY :
  0 ≤ calcPos s inY → (Z.to_nat (calcPos s inY) < fuel)%nat →
  ∃ n, 0 ≤ n
    ∧ positionToPageInfo s fuel inY
      = Some {| no := n; height := getPageHeight s n;
                pos := calcPos s inY - heightsBelow s n |}
    ∧ heightsBelow s n ≤ calcPos s inY < heightsBelow s (n + 1).
Proof.
  intros Hp Hf. unfold positionToPageInfo.
  destruct (positionToPageInfo_loop_spec fuel (-1) (calcPos s inY)
              (defaultPageHeight s)) as (n & Hn & Heq & Hlo & Hhi);
    [lia|done|done|].
  replace (-1 + 1) with 0 in * by lia.
  rewrite (heightsBelow_nonpos s 0) in * by lia.
  exists n. rewrite Heq. split; [lia|]. split; [|lia].
  do 2 f_equal. lia.
Qed.
End PositiveHeights.

(** *** Logical positions *)

Lemma calcPos_topDown s y : bottomUp s = false → calcPos s y = y.
Proof. unfold calcPos. by intros ->. Qed.

Lemma calcPos_involutive s y : calcPos s (calcPos s y) = y.
Proof. unfold calcPos. destruct (bottomUp s); lia. Qed.

(** Heights are positive as soon as the default is and no negative
    measurement is cached. *)
Lemma getPageHeight_pos s :
  0 < defaultPageHeight s →
  map_Forall (fun _ h => 0 ≤ h) (pageHeights s) →
  ∀ q, 0 < getPageHeight s q.
Proof.
  intros Hd Hm q. unfold getPageHeight.
  destruct (pageHeights s !! q) as [h|] eqn:E; [|done].
  apply Hm in E. destruct (Z.eqb_spec h 0); lia.
Qed.

Lemma sampleList_heights q : 0 < getPageHeight sampleList q.
Proof. apply getPageHeight_pos; [done|]. apply map_Forall_empty. Qed.

Lemma bottomUpList_heights q : 0 < getPageHeight bottomUpList q.
Proof. apply getPageHeight_pos; [done|]. apply map_Forall_empty. Qed.

Lemma measuredList_heights q : 0 < getPageHeight measuredList q.
Proof.
  apply getPageHeight_pos; [done|].
  apply map_Forall_singleton. simpl. lia.
Qed.

(** C2.  With positive page heights, for every valid page [p] the offset
    [pageToPosition p] is the sum of the heights of the pages below [p],
    and [positionToPageInfo] maps any scroll offset [y] whose logical
    position [calcPos y] is that offset back to page [p]; the walk ends
    as soon as the fuel exceeds the offset.  In top-down lists [y] is
    [pageToPosition p] itself, in bottom-up lists it is its mirror image
    [calcPos (pageToPosition p)]. *)
Theorem C2_pageToPosition_round_trip s p :
  (∀ q, 0 < getPageHeight s q) →
  0 ≤ p ≤ pageCount s - 1 →
  pageToPosition s p = heightsBelow s p
  ∧ (∀ y fuel,
       calcPos s y = pageToPosition s p →
       (Z.to_nat (pageToPosition s p) < fuel)%nat →
       ∃ pi, positionToPageInfo s fuel y = Some pi ∧ no pi = p)
  ∧ calcPos s (calcPos s (pageToPosition s p)) = pageToPosition s p
  ∧ (bottomUp s = false → calcPos s (pageToPosition s p) = pageToPosition s p).
Proof.
  intros Hpos Hp. split; [apply pageToPosition_sum|].
  split; [|split; [apply calcPos_involutive|apply calcPos_topDown]].
  intros y fuel Hy Hfuel.
  pose proof (heightsBelow_ge_index s Hpos p ltac:(lia)) as Hge.
  rewrite pageToPosition_sum in Hy, Hfuel.
  destruct (positionToPageInfo_spec s Hpos fuel y) as (n & Hn & Heq & Hlo & Hhi);
    [lia|by rewrite Hy|].
  eexists. split; [exact Heq|]. simpl. rewrite Hy in Hlo, Hhi.
  destruct (Z.lt_trichotomy n p) as [Hlt|[->|Hgt]]; [|done|].
  - pose proof (heightsBelow_le s Hpos (n + 1) p). lia.
  - pose proof (heightsBelow_le s Hpos (p + 1) n). 
    pose proof (heightsBelow_lt s Hpos p (p + 1)). lia.
Qed.

Lemma C2_witness :
  pageToPosition bottomUpList 4 = 4000
  ∧ (∃ pi, positionToPageInfo bottomUpList 4001 5600 = Some pi ∧ no pi = 4)
  ∧ pageToPosition measuredList 3 = 3200
  ∧ (∃ pi, positionToPageInfo measuredList 3201 3200 = Some pi ∧ no pi = 3).
Proof.
  destruct (C2_pageToPosition_round_trip bottomUpList 4 bottomUpList_heights)
    as (_ & Hb & _); [vm_compute; intuition discriminate|].
  destruct (C2_pageToPosition_round_trip measuredList 3 measuredList_heights)
    as (_ & Hm & _); [vm_compute; intuition discriminate|].
  split; [reflexivity|]. split; [apply Hb; [reflexivity|vm_compute; lia]|].
  split; [reflexivity|]. apply Hm; [reflexivity|vm_compute; lia].
Defined.

(** *** isPageInRange *)

(** The clamp idiom accepts the pages of [0, pageCount-1], and page 0
    whatever [pageCount] is. *)
Lemma isPageInRange_spec s p :
  isPageInRange s p = true ↔ 0 ≤ p ≤ pageCount s - 1 ∨ p = 0.
Proof. unfold isPageInRange. rewrite Z.eqb_eq. lia. Qed.






(** *** Recording a measured height *)

Lemma heightsBelow_ext s s' n :
  (∀ q, getPageHeight s q = getPageHeight s' q) →
  heightsBelow s n = heightsBelow s' n.
Proof.
  intros H. unfold heightsBelow. f_equal.
  apply list_fmap_ext. intros _ q _. apply H.
Qed.

Lemma heightsBelow_change s s' p d n :
  (∀ q, q ≠ p → getPageHeight s' q = getPageHeight s q) →
  getPageHeight s' p = getPageHeight s p + d →
  heightsBelow s' n
  = heightsBelow s n + (if decide (0 ≤ p < n) then d else 0).
Proof.
  intros Hne Heq. destruct (decide (n ≤ 0)) as [Hn|Hn].
  { rewrite !heightsBelow_nonpos by done. case_decide; lia. }
  rewrite <- (Z2Nat.id n) by lia. generalize (Z.to_nat n) as i. clear Hn n.
  induction i as [|i IH].
  - rewrite !heightsBelow_nonpos by done. case_decide; lia.
  - rewrite !heightsBelow_S, IH.
    destruct (decide (Z.of_nat i = p)) as [<-|Hip].
    + rewrite Heq. repeat case_decide; lia.
    + rewrite (Hne _ Hip). repeat case_decide; lia.
Qed.

Lemma getPageHeight_insert s p h sz q :
  h ≠ 0 →
  getPageHeight
    (set_portSize sz (set_pageHeights (<[p := h]> (pageHeights s)) s)) q
  = if decide (q = p) then h else getPageHeight s q.
Proof.
  intros Hh. unfold getPageHeight. simpl. case_decide as Hq.
  - subst q. rewrite lookup_insert_eq. by destruct (Z.eqb_spec h 0).
  - by rewrite lookup_insert_ne.
Qed.

(** The block under "update known page heights". *)
Lemma recordPageHeight_spec p h s :
  fixedHeight s = false →
  let s' := recordPageHeight p h s in
  pageCount s' = pageCount s
  ∧ (h ≤ 0 ∨ h = getPageHeight s p → s' = s)
  ∧ (0 < h → h ≠ getPageHeight s p →
       pageHeights s' = <[p := h]> (pageHeights s)
       ∧ portSize s' = portSize s + (h - getPageHeight s p)
       ∧ getPageHeight s' p = h)
  ∧ (0 ≤ p < pageCount s →
       portSize s = heightsBelow s (pageCount s) →
       portSize s' = heightsBelow s' (pageCount s')).
Proof.
  intros Hfix. unfold recordPageHeight. rewrite Hfix.
  destruct (Z.eqb_spec (getPageHeight s p) h) as [He|He];
    destruct (Z.ltb_spec 0 h) as [Hh|Hh]; simpl;
    try (split; [done|]; split; [done|]; split; [intros; lia|done]).
  split; [done|]. split; [intros; lia|]. split.
  - intros _ _. split; [done|]. split; [done|].
    rewrite getPageHeight_insert by lia. by rewrite decide_True.
  - intros Hp Hinv.
    rewrite (heightsBelow_change s _ p (h - getPageHeight s p)).
    + rewrite decide_True by lia. lia.
    + intros q Hq. rewrite getPageHeight_insert by lia.
      by rewrite decide_False.
    + rewrite getPageHeight_insert by lia. rewrite decide_True by done. lia.
Qed.

(** What [generatePage] does before it looks at the measured height,
    when the row height is not inferred from it. *)
Lemma generatePage_no_inference b p t s :
  rowHeight s ≠ 0 ∨ renderedHeight b t p ≤ 0 →
  ∃ s1, generatePage b p t s
        = Some (recordPageHeight p (renderedHeight b t p) s1)
    ∧ pageHeights s1 = pageHeights s
    ∧ defaultPageHeight s1 = defaultPageHeight s
    ∧ portSize s1 = portSize s
    ∧ pageCount s1 = pageCount s
    ∧ fixedHeight s1 = fixedHeight s.
Proof.
  intros Hrh. unfold generatePage.
  assert ((rowHeight s =? 0) && (0 <? renderedHeight b t p) = false) as Hc.
  { destruct (Z.eqb_spec (rowHeight s) 0); [|done].
    destruct (Z.ltb_spec 0 (renderedHeight b t p)); [lia|done]. }
  destruct t; cbn -[recordPageHeight Z.mul Z.min Z.sub Z.eqb Z.ltb];
    rewrite Hc; cbn -[recordPageHeight Z.mul Z.min Z.sub];
    eexists; (split; [reflexivity|]); done.
Qed.

(** The full recompute establishes the sum. *)
Lemma updateMetrics_portSize b s s' :
  updateMetrics b s = Some s' →
  portSize s' = heightsBelow s' (pageCount s')
  ∧ pageCount s' = ceilDiv (count s) (rowsPerPage s).
Proof.
  unfold updateMetrics. destruct (Z.eqb_spec (rowsPerPage s) 0); [done|].
  intros [= <-]. cbn. rewrite sumPageHeights_heightsBelow. split; [|done].
  by apply heightsBelow_ext.
Qed.

Lemma sameHeights_getPageHeight s s' q :
  sameHeights s s' → getPageHeight s' q = getPageHeight s q.
Proof. intros (Hph & Hd & _). unfold getPageHeight. by rewrite Hph, Hd. Qed.

(** [updateMetrics] reads only the settings and the height cache: two
    lists that agree on them get the same metrics. *)
Lemma updateMetrics_untouched b v s s1 sm :
  untouched s s1 →
  updateMetrics b (set_rowHeight v s) = Some sm →
  ∃ s2, updateMetrics b (set_rowHeight v s1) = Some s2
    ∧ sameHeights sm s2 ∧ rowHeight s2 = v ∧ rowHeight sm = v.
Proof.
  intros [(Hph & Hd & Hps & Hpc & Hc & Hr & Hf & Hb) _].
  unfold updateMetrics. cbn. rewrite Hr, Hc.
  destruct (rowsPerPage s =? 0); [done|]. intros [= <-].
  eexists. split; [reflexivity|]. unfold sameHeights. cbn.
  split_and!; try done.
  rewrite !sumPageHeights_heightsBelow. apply heightsBelow_ext.
  intros q. unfold getPageHeight. cbn. by rewrite Hph.
Qed.

(** The branch of [generatePage] that infers the row height: it is
    [Math.floor (pageHeight / rpp)], followed by [updateMetrics] and the
    recording of the measured height. *)
Lemma generatePage_inference b p t s :
  rowHeight s = 0 → 0 < renderedHeight b t p →
  Z.min (count s - rowsPerPage s * p) (rowsPerPage s) ≠ 0 →
  ∃ s1, untouched s s1
    ∧ generatePage b p t s
      = (s2 ← updateMetrics b
                (set_rowHeight
                   (renderedHeight b t p
                    / Z.min (count s - rowsPerPage s * p) (rowsPerPage s)) s1);
         Some (recordPageHeight p (renderedHeight b t p) s2)).
Proof.
  intros Hrh Hh Hrows. unfold generatePage. cbv zeta.
  match goal with |- context [set_node t ?n ?s0] =>
    set (s1 := set_node t n s0) end.
  assert (untouched s s1) as Hu by (subst s1; destruct t; done).
  assert (rowHeight s1 = rowHeight s) as E by apply Hu.
  exists s1. split; [done|]. clearbody s1. rewrite E, Hrh. cbn [Z.eqb andb].
  destruct (Z.ltb_spec 0 (renderedHeight b t p)); [|lia].
  cbn [page count rowsPerPage set_page].
  by destruct (Z.eqb_spec (Z.min (count s - rowsPerPage s * p) (rowsPerPage s)) 0).
Qed.

(** C6.  In non-fixedHeight mode, generating page [p] with measured
    height [h] records it as follows.  Once the row height is known (or
    when [h] is not positive) the height cache and [portSize] are left
    alone if [h] is non-positive or equal to the height known for [p];
    otherwise [h] is stored for [p] and [portSize] moves by exactly [h]
    minus the previous height of [p], with no recompute.  While the row
    height is unset and [h] is positive, the row height is first inferred
    as [h] divided by the rows of the page and [updateMetrics] recomputes
    default height, page count and [portSize]; the same rule then applies
    against the recomputed height of [p] and the recomputed [portSize].
    Either way [portSize] is the sum of [getPageHeight] over pages
    [0 .. pageCount-1] afterwards when [p] is one of these pages (and, in
    the first case, it was before). *)
Theorem C6_generatePage_records_height b p t s :
  fixedHeight s = false →
  let h := renderedHeight b t p in
  let rows := Z.min (count s - rowsPerPage s * p) (rowsPerPage s) in
  (rowHeight s ≠ 0 ∨ h ≤ 0 →
   ∃ s', generatePage b p t s = Some s'
     ∧ (h ≤ 0 ∨ h = getPageHeight s p →
          pageHeights s' = pageHeights s ∧ portSize s' = portSize s)
     ∧ (0 < h → h ≠ getPageHeight s p →
          pageHeights s' = <[p := h]> (pageHeights s)
          ∧ portSize s' = portSize s + (h - getPageHeight s p))
     ∧ (0 ≤ p < pageCount s →
          portSize s = heightsBelow s (pageCount s) →
          portSize s' = heightsBelow s' (pageCount s')))
  ∧ (rowHeight s = 0 → 0 < h → rowsPerPage s ≠ 0 → rows ≠ 0 →
     ∃ sm s', updateMetrics b (set_rowHeight (h / rows) s) = Some sm
       ∧ generatePage b p t s = Some s'
       ∧ rowHeight s' = h / rows
       ∧ defaultPageHeight s'
         = rowsPerPage s * (if h / rows =? 0 then 100 else h / rows)
       ∧ pageCount s' = ceilDiv (count s) (rowsPerPage s)
       ∧ portSize sm = heightsBelow sm (pageCount sm)
       ∧ (h = getPageHeight sm p →
            pageHeights s' = pageHeights s ∧ portSize s' = portSize sm)
       ∧ (h ≠ getPageHeight sm p →
            pageHeights s' = <[p := h]> (pageHeights s)
            ∧ portSize s' = portSize sm + (h - getPageHeight sm p))
       ∧ (0 ≤ p < pageCount s' →
            portSize s' = heightsBelow s' (pageCount s'))).
Proof.
  intros Hfix h rows. split.
  - intros Hrh.
    destruct (generatePage_no_inference b p t s Hrh)
      as (s1 & Hgen & Hph & Hd & Hps & Hpc & Hfx).
    assert (∀ q, getPageHeight s1 q = getPageHeight s q) as Hget.
    { intros q. unfold getPageHeight. by rewrite Hph, Hd. }
    rewrite Hfix in Hfx.
    destruct (recordPageHeight_spec p h s1 Hfx) as (Hc & Hsame & Hstore & Hinv).
    eexists. split; [exact Hgen|]. fold h. split; [|split].
    + intros Hcase. rewrite Hsame by (rewrite Hget; done). done.
    + intros Hh Hne. destruct Hstore as (-> & -> & _);
        [done|by rewrite Hget|]. by rewrite Hph, Hps, Hget.
    + intros Hp Hsum. apply Hinv; [lia|].
      rewrite Hps, Hpc, Hsum. apply heightsBelow_ext. intros q. by rewrite Hget.
  - intros Hrh Hh Hr Hrows.
    destruct (generatePage_inference b p t s Hrh Hh Hrows) as (s1 & Hu & Hgen).
    fold h rows in Hgen.
    assert (∃ sm, updateMetrics b (set_rowHeight (h / rows) s) = Some sm)
      as [sm Hsm].
    { unfold updateMetrics. cbn. destruct (Z.eqb_spec (rowsPerPage s) 0); eauto.
      done. }
    destruct (updateMetrics_untouched b (h / rows) s s1 sm Hu Hsm)
      as (s2 & Hs2 & Hsh & Hrh2 & Hrhm).
    rewrite Hs2 in Hgen. cbn [mbind option_bind] in Hgen.
    destruct (updateMetrics_portSize _ _ _ Hsm) as [Hsum Hpcm].
    cbn [count rowsPerPage set_rowHeight] in Hpcm.
    assert (defaultPageHeight sm
            = rowsPerPage s * (if h / rows =? 0 then 100 else h / rows)
            ∧ pageHeights sm = pageHeights s ∧ fixedHeight sm = false)
      as (Hdm & Hphm & Hfm).
    { unfold updateMetrics in Hsm. cbn in Hsm.
      destruct (rowsPerPage s =? 0); [done|]. by injection Hsm as <-. }
    pose proof Hsh as (Eph & Ed & Eps & Epc & _ & _ & Ef & _).
    assert (∀ q, getPageHeight s2 q = getPageHeight sm q) as Hget
      by (intros q; by apply sameHeights_getPageHeight).
    assert (fixedHeight s2 = false) as Hf2 by congruence.
    destruct (recordPageHeight_spec p h s2 Hf2) as (Hc & Hsame & Hstore & Hinv).
    pose proof Hc as Fpc. cbv zeta in Fpc.
    assert (rowHeight (recordPageHeight p h s2) = h / rows
            ∧ defaultPageHeight (recordPageHeight p h s2) = defaultPageHeight s2)
      as [Hrr Hdd].
    { unfold recordPageHeight. rewrite Hf2. by destruct (_ && _). }
    exists sm, (recordPageHeight p h s2).
    split; [done|]. split; [exact Hgen|]. split; [exact Hrr|].
    split; [by rewrite Hdd, Ed|]. split; [by rewrite Fpc, Epc|].
    split; [exact Hsum|]. split; [|split].
    + intros Heq. rewrite Hsame by (right; by rewrite Hget).
      by rewrite Eph, Eps.
    + intros Hne. destruct Hstore as (-> & -> & _);
        [done|by rewrite Hget|]. by rewrite Eph, Eps, Hget, Hphm.
    + intros Hp. apply Hinv; [by rewrite Fpc in Hp|].
      rewrite Eps, Epc, Hsum. apply heightsBelow_ext. intros q.
      by rewrite Hget.
Qed.

Lemma C6_witness :
  (∃ s', generatePage shortBounds 3 page1 measuredList = Some s'
     ∧ pageHeights s' = <[3 := 500]> (pageHeights measuredList)
     ∧ portSize s' = 9700)
  ∧ (∃ s', generatePage shortBounds 1 page1 shortList = Some s'
       ∧ rowHeight s' = 20
       ∧ pageHeights s' = <[1 := 500]> (pageHeights shortList)
       ∧ portSize s' = 1500
       ∧ portSize s' = heightsBelow s' (pageCount s')).
Proof.
  destruct (C6_generatePage_records_height shortBounds 3 page1 measuredList
              eq_refl) as [Hknown _].
  destruct (C6_generatePage_records_height shortBounds 1 page1 shortList
              eq_refl) as [_ Hinfer].
  split.
  - destruct Hknown as (s' & Hgen & _ & Hstore & _); [left; discriminate|].
    exists s'. split; [exact Hgen|].
    destruct Hstore as [Hph Hps]; [reflexivity|discriminate|].
    split; [exact Hph|exact Hps].
  - destruct Hinfer as (sm & s' & Hsm & Hgen & Hrh & _ & Hpc & _ & _ & Hstore
                        & Hinv);
      [reflexivity|reflexivity|discriminate|discriminate|].
    vm_compute in Hsm. injection Hsm as <-.
    exists s'. split; [exact Hgen|]. split; [exact Hrh|].
    destruct Hstore as [Hph Hps]; [discriminate|].
    split; [exact Hph|]. split; [exact Hps|].
    apply Hinv. rewrite Hpc. vm_compute. intuition discriminate.
Defined.

(** At the first measurement after a reset the row height is still
    unset: [generatePage] infers it and runs [updateMetrics].  The 1000px
    measured for page 0 differ from the 5000px known for it, yet they are
    not stored, and [portSize] goes from 10000 to 2000, not to
    10000 + (1000 - 5000). *)
Lemma C6_counterexample :
  fixedHeight freshList = false
  ∧ 0 < renderedHeight freshBounds page0 0
  ∧ renderedHeight freshBounds page0 0 ≠ getPageHeight freshList 0
  ∧ ∃ s', generatePage freshBounds 0 page0 freshList = Some s'
      ∧ pageHeights s' !! 0 = None
      ∧ portSize s' = 2000
      ∧ portSize s'
        ≠ portSize freshList
          + (renderedHeight freshBounds page0 0 - getPageHeight freshList 0).
Proof.
  split; [reflexivity|]. split; [reflexivity|]. split; [discriminate|].
  eexists. split; [vm_compute; reflexivity|].
  split; [reflexivity|]. split; [reflexivity|discriminate].
Qed.

(** *** The two slots of [update] *)

Lemma isEven_even k : isEven k = Z.even k.
Proof.
  unfold isEven. apply eq_true_iff_eq.
  rewrite Z.eqb_eq, Z.even_spec, Z.rem_divide by lia.
  unfold Z.divide, Z.Even. split; intros [m ->]; exists m; lia.
Qed.

Lemma page0Target_even k :
  Z.even (page0Target k) = true ∧ (page0Target k = k ∨ page0Target k = k - 1).
Proof.
  unfold page0Target. rewrite isEven_even.
  destruct (Z.even k) eqn:E; [auto|]. split; [|auto].
  rewrite Z.even_sub, E. reflexivity.
Qed.

Lemma page1Target_odd k :
  Z.odd (page1Target k) = true
  ∧ (Z.odd k = true → page1Target k = k)
  ∧ (Z.even k = true → page1Target k = Z.max 1 (k - 1)).
Proof.
  unfold page1Target. rewrite isEven_even, <- (Z.negb_even k).
  destruct (Z.even k) eqn:E; simpl; [|by rewrite <- Z.negb_even, E].
  split; [|done].
  destruct (Z.max_spec 1 (k - 1)) as [[_ ->]|[_ ->]]; [|done].
  by rewrite Z.odd_sub, <- Z.negb_even, E.
Qed.

Lemma holds_false cur p : holds cur p = false ↔ cur ≠ Some p.
Proof.
  destruct cur as [q|]; simpl; [|done].
  destruct (Z.eqb_spec q p); split; congruence.
Qed.

Lemma recordPageHeight_frame p h s :
  sameSlots s (recordPageHeight p h s)
  ∧ pageCount (recordPageHeight p h s) = pageCount s.
Proof.
  unfold recordPageHeight, sameSlots.
  destruct (fixedHeight s); [done|].
  destruct (negb _ && _); done.
Qed.

Lemma updateMetrics_frame b s s' :
  updateMetrics b s = Some s' →
  sameSlots s s' ∧ pageCount s' = ceilDiv (count s) (rowsPerPage s).
Proof.
  unfold updateMetrics, sameSlots.
  destruct (rowsPerPage s =? 0); [done|]. by intros [= <-].
Qed.

Lemma generatePage_trace b p t s s' :
  generatePage b p t s = Some s' →
  generated s' = generated s ++ [(t, p)]
  ∧ p0 s' = p0 s ∧ p1 s' = p1 s
  ∧ count s' = count s ∧ rowsPerPage s' = rowsPerPage s
  ∧ content (node t s')
    = Some (rowsPerPage s * p, Z.min (count s - rowsPerPage s * p) (rowsPerPage s))
  ∧ (pageCount s' = pageCount s
     ∨ pageCount s' = ceilDiv (count s) (rowsPerPage s)).
Proof.
  unfold generatePage. cbv zeta.
  match goal with |- context [set_node t ?n ?s0] =>
    set (s1 := set_node t n s0) end.
  assert (generated s1 = generated s ++ [(t, p)]
          ∧ p0 s1 = p0 s ∧ p1 s1 = p1 s
          ∧ count s1 = count s ∧ rowsPerPage s1 = rowsPerPage s
          ∧ content (node t s1)
            = Some (rowsPerPage s * p,
                    Z.min (count s - rowsPerPage s * p) (rowsPerPage s))
          ∧ pageCount s1 = pageCount s) as H1.
  { subst s1. destruct t; done. }
  destruct H1 as (Hg & Hp0 & Hp1 & Hc & Hr & Hn & Hpc).
  destruct (_ && _).
  - destruct (_ =? 0); [done|].
    match goal with |- context [updateMetrics b ?x] =>
      destruct (updateMetrics b x) as [s2|] eqn:Em; [|done] end.
    cbn. intros [= <-].
    apply updateMetrics_frame in Em as [(E0 & E1 & En0 & En1 & Eg & Ec & Er) Epc].
    destruct (recordPageHeight_frame p (renderedHeight b t p) s2)
      as [(F0 & F1 & Fn0 & Fn1 & Fg & Fc & Fr) Fpc].
    cbn in Ec, Er, E0, E1, Eg, En0, En1, Epc.
    rewrite Fg, Eg, Hg, F0, E0, Hp0, F1, E1, Hp1, Fc, Ec, Hc, Fr, Er, Hr,
      Fpc, Epc, Hc, Hr.
    split_and!; try done; [|by right].
    rewrite <- Hn. destruct t; cbn [node]; congruence.
  - cbn. intros [= <-].
    destruct (recordPageHeight_frame p (renderedHeight b t p) s1)
      as [(F0 & F1 & Fn0 & Fn1 & Fg & Fc & Fr) Fpc].
    rewrite Fg, Hg, F0, Hp0, F1, Hp1, Fc, Hc, Fr, Hr, Fpc, Hpc.
    split_and!; try done; [|by left].
    rewrite <- Hn. destruct t; cbn [node]; congruence.
Qed.

(** One guarded block of [update]: the slot is regenerated exactly when
    its target differs from the page it holds and [isPageInRange] accepts
    the target. *)
Lemma updateSlot_spec b t p s u s' u' :
  updateSlot b t p (s, u) = Some (s', u') →
  (slotPage t s ≠ Some p ∧ isPageInRange s p = true →
     generated s' = generated s ++ [(t, p)]
     ∧ slotPage t s' = Some p ∧ u' = true
     ∧ count s' = count s ∧ rowsPerPage s' = rowsPerPage s
     ∧ (pageCount s' = pageCount s
        ∨ pageCount s' = ceilDiv (count s) (rowsPerPage s)))
  ∧ (¬ (slotPage t s ≠ Some p ∧ isPageInRange s p = true) →
     s' = s ∧ u' = u)
  ∧ match t with page0 => p1 s' = p1 s | page1 => p0 s' = p0 s end.
Proof.
  unfold updateSlot. cbn [fst snd].
  destruct (holds (slotPage t s) p) eqn:Eh; cbn [negb andb].
  { intros [= <- <-]. split_and!; [|done|by destruct t].
    intros [Hne _]. apply holds_false in Hne. congruence. }
  destruct (isPageInRange s p) eqn:Er.
  2:{ intros [= <- <-]. split_and!; [|done|by destruct t].
      intros [_ ?]. congruence. }
  destruct (generatePage b p t s) as [s1|] eqn:Eg; [|done]. cbn.
  intros [= <- <-].
  apply generatePage_trace in Eg as (Hg & Hp0 & Hp1 & Hc & Hr & _ & Hpc).
  split_and!.
  - intros _. destruct t; cbn; auto 10.
  - intros Hn. exfalso. apply Hn. split; [by apply holds_false|done].
  - destruct t; cbn; done.
Qed.

Lemma update_unfold b fuel y s s' pi k :
  positionToPageInfo s fuel y = Some pi →
  leapFrog s pi = Some k →
  update b fuel y s = Some s' →
  ∃ s1 u1 s2 u2,
    updateSlot b page0 (page0Target k) (s, false) = Some (s1, u1)
    ∧ updateSlot b page1 (page1Target k) (s1, u1) = Some (s2, u2)
    ∧ generated s' = generated s2 ∧ p0 s' = p0 s2 ∧ p1 s' = p1 s2.
Proof.
  intros Hpi Hk. unfold update. rewrite Hpi. cbn [mbind option_bind].
  rewrite Hk.
  destruct (updateSlot b page0 _ _) as [[s1 u1]|] eqn:E0; [|done].
  cbn [mbind option_bind].
  destruct (updateSlot b page1 _ _) as [[s2 u2]|] eqn:E1; [|done].
  cbn [mbind option_bind fst snd].
  intros Hs'. exists s1, u1, s2, u2. split; [done|]. split; [done|].
  destruct (u2 && negb (fixedHeight s2)); injection Hs' as <-; [|done].
  unfold adjustPortSize, adjustBottomPage, positionPage.
  by destruct (_ <=? _).
Qed.

(** [update] returns: with positive page heights, a known row height and
    fuel above the logical position, the page walk ends and neither slot
    block leaves the integers. *)
Lemma generatePage_total b p t s :
  rowHeight s ≠ 0 →
  ∃ s', generatePage b p t s = Some s' ∧ rowHeight s' = rowHeight s.
Proof.
  intros Hrh. unfold generatePage.
  destruct (Z.eqb_spec (rowHeight s) 0) as [|_]; [done|].
  destruct t; cbn -[recordPageHeight Z.mul Z.min Z.sub Z.eqb Z.ltb];
    (destruct (Z.eqb_spec (rowHeight s) 0) as [|_]; [done|]);
    cbn -[recordPageHeight Z.mul Z.min Z.sub];
    (eexists; split; [reflexivity|]);
    unfold recordPageHeight; repeat case_match; done.
Qed.

Lemma updateSlot_total b t p s u :
  rowHeight s ≠ 0 →
  ∃ s' u', updateSlot b t p (s, u) = Some (s', u')
    ∧ rowHeight s' = rowHeight s.
Proof.
  intros Hrh. unfold updateSlot. cbn [fst snd].
  destruct (negb _ && _); [|by eauto].
  destruct (generatePage_total b p t s Hrh) as (s1 & -> & Hr1). cbn.
  eexists _, _. split; [reflexivity|]. by destruct t.
Qed.

Lemma update_total b fuel y s :
  (∀ q, 0 < getPageHeight s q) →
  rowHeight s ≠ 0 →
  (Z.to_nat (calcPos s y) < fuel)%nat →
  ∃ s', update b fuel y s = Some s'.
Proof.
  intros Hpos Hrh Hfuel.
  assert (∃ pi, positionToPageInfo s fuel y = Some pi) as [pi Hpi].
  { destruct (decide (0 ≤ calcPos s y)) as [Hnn|Hneg].
    - destruct (positionToPageInfo_spec s Hpos fuel y Hnn Hfuel)
        as (n & _ & -> & _). eauto.
    - unfold positionToPageInfo. destruct fuel; [lia|].
      cbn [positionToPageInfo_loop].
      destruct (Z.leb_spec 0 (calcPos s y)); [lia|eauto]. }
  unfold update. rewrite Hpi. cbn [mbind option_bind].
  destruct (leapFrog s pi) as [k|]; [|eauto].
  destruct (updateSlot_total b page0 (page0Target k) s false Hrh)
    as (s1 & u1 & -> & Hr1). cbn [mbind option_bind].
  rewrite <- Hr1 in Hrh.
  destruct (updateSlot_total b page1 (page1Target k) s1 u1 Hrh)
    as (s2 & u2 & -> & _). cbn [mbind option_bind].
  destruct (_ && _); eauto.
Qed.

Lemma ceilDiv_bounds a b :
  0 < b → (ceilDiv a b - 1) * b < a ≤ ceilDiv a b * b.
Proof.
  intros Hb. unfold ceilDiv.
  pose proof (Z.div_mod (- a) b ltac:(lia)).
  pose proof (Z.mod_pos_bound (- a) b Hb). nia.
Qed.

(** A list with rows in every page: [rowsPerPage] is positive,
    [pageCount] is up to date and at least 1. *)
Lemma defaultPageHeight_pos s :
  (∀ q, 0 < getPageHeight s q) → 0 < defaultPageHeight s.
Proof.
  intros Hpos.
  destruct (exist_fresh (dom (pageHeights s))) as [q Hq].
  apply not_elem_of_dom in Hq. specialize (Hpos q).
  unfold getPageHeight in Hpos. by rewrite Hq in Hpos.
Qed.

Lemma generatePage_returns b p t s :
  0 < rowsPerPage s →
  pageCount s = ceilDiv (count s) (rowsPerPage s) →
  0 ≤ p ≤ pageCount s - 1 →
  ∃ s', generatePage b p t s = Some s'.
Proof.
  intros Hr Hpc Hp.
  pose proof (ceilDiv_bounds (count s) (rowsPerPage s) Hr) as [Hlo _].
  rewrite <- Hpc in Hlo.
  assert (Z.min (count s - rowsPerPage s * p) (rowsPerPage s) ≠ 0) as Hrows
    by nia.
  destruct (decide (rowHeight s ≠ 0 ∨ renderedHeight b t p ≤ 0)) as [Hc|Hc].
  - destruct (generatePage_no_inference b p t s Hc) as (s1 & -> & _). eauto.
  - destruct (generatePage_inference b p t s) as (s1 & Hu & ->);
      [lia|lia|done|].
    unfold updateMetrics. cbn.
    destruct Hu as [(_ & _ & _ & _ & _ & -> & _) _].
    destruct (Z.eqb_spec (rowsPerPage s) 0); [lia|]. cbn. eauto.
Qed.

Lemma updateSlot_returns b t p s u :
  0 < rowsPerPage s →
  pageCount s = ceilDiv (count s) (rowsPerPage s) →
  1 ≤ pageCount s →
  ∃ s' u', updateSlot b t p (s, u) = Some (s', u')
    ∧ rowsPerPage s' = rowsPerPage s ∧ count s' = count s
    ∧ pageCount s' = pageCount s.
Proof.
  intros Hr Hpc H1. unfold updateSlot. cbn [fst snd].
  destruct (negb _); cbn [andb]; [|by eauto 10].
  destruct (isPageInRange s p) eqn:Hin; [|by eauto 10].
  apply isPageInRange_spec in Hin.
  destruct (generatePage_returns b p t s Hr Hpc) as [s1 Hg]; [lia|].
  rewrite Hg. cbn.
  apply generatePage_trace in Hg as (_ & _ & _ & Hc & Hrp & _ & Hp).
  eexists _, _. split; [reflexivity|].
  destruct t; cbn; (split; [done|]); (split; [done|]);
    destruct Hp as [->| ->]; done.
Qed.

(** [update] returns on such a list once the fuel exceeds the logical
    position and the page heights are positive, whether or not a row
    height is known, and its leap-frog index is a number. *)
Lemma update_returns b fuel y s :
  (∀ q, 0 < getPageHeight s q) →
  (Z.to_nat (calcPos s y) < fuel)%nat →
  0 < rowsPerPage s →
  pageCount s = ceilDiv (count s) (rowsPerPage s) →
  1 ≤ pageCount s →
  ∃ pi k s', positionToPageInfo s fuel y = Some pi
    ∧ leapFrog s pi = Some k
    ∧ update b fuel y s = Some s'.
Proof.
  intros Hpos Hfuel Hr Hpc H1.
  assert (∃ pi, positionToPageInfo s fuel y = Some pi ∧ 0 < height pi)
    as (pi & Hpi & Hh).
  { destruct (decide (0 ≤ calcPos s y)) as [Hnn|Hneg].
    - destruct (positionToPageInfo_spec s Hpos fuel y Hnn Hfuel)
        as (n & _ & -> & _). eexists. split; [done|]. apply Hpos.
    - unfold positionToPageInfo. destruct fuel; [lia|].
      cbn [positionToPageInfo_loop].
      destruct (Z.leb_spec 0 (calcPos s y)); [lia|].
      eexists. split; [done|]. by apply defaultPageHeight_pos. }
  assert (∃ k, leapFrog s pi = Some k) as [k Hk].
  { unfold leapFrog. destruct (Z.eqb_spec (Z.max (height pi) (scrollerHeight s)) 0);
      [lia|eauto]. }
  exists pi, k. unfold update. rewrite Hpi. cbn [mbind option_bind].
  rewrite Hk.
  destruct (updateSlot_returns b page0 (page0Target k) s false Hr Hpc H1)
    as (s1 & u1 & -> & Hr1 & Hc1 & Hp1). cbn [mbind option_bind].
  destruct (updateSlot_returns b page1 (page1Target k) s1 u1)
    as (s2 & u2 & -> & _); [lia|congruence|lia|]. cbn [mbind option_bind].
  destruct (_ && _); eauto.
Qed.

(** C7.  On every [update] with leap-frog index [k]: slot [page0] targets
    the even-valued candidate among [k] and [k-1]; slot [page1] targets an
    odd page, [k] itself when [k] is odd and [max 1 (k-1)] when [k] is
    even (the clamp is at page 1 and on the even branch only); and, as
    long as [pageCount] is at least 1 when the slot is examined, a slot
    is regenerated only if its target differs from the page it holds and
    lies within [0, pageCount-1] (and it is regenerated then).  On a list
    with up-to-date [pageCount >= 1], positive [rowsPerPage] and positive
    page heights, [update] does return, with a leap-frog index, as soon
    as the fuel exceeds the logical position, row height known or not. *)
Theorem C7_update_slot_targets b fuel y s :
  (∀ k,
     (Z.even (page0Target k) = true
      ∧ (page0Target k = k ∨ page0Target k = k - 1))
     ∧ (Z.odd (page1Target k) = true
        ∧ (Z.odd k = true → page1Target k = k)
        ∧ (Z.even k = true → page1Target k = Z.max 1 (k - 1))))
  ∧ (∀ s' pi k,
       positionToPageInfo s fuel y = Some pi →
       leapFrog s pi = Some k →
       update b fuel y s = Some s' →
       ∃ s1 u1 s2 u2,
         updateSlot b page0 (page0Target k) (s, false) = Some (s1, u1)
         ∧ updateSlot b page1 (page1Target k) (s1, u1) = Some (s2, u2)
         ∧ generated s' = generated s2 ∧ p0 s' = p0 s2 ∧ p1 s' = p1 s2
         ∧ (1 ≤ pageCount s →
              (p0 s ≠ Some (page0Target k)
               ∧ 0 ≤ page0Target k ≤ pageCount s - 1 →
                 generated s1 = generated s ++ [(page0, page0Target k)]
                 ∧ p0 s1 = Some (page0Target k))
              ∧ (¬ (p0 s ≠ Some (page0Target k)
                    ∧ 0 ≤ page0Target k ≤ pageCount s - 1) → s1 = s))
         ∧ (1 ≤ pageCount s1 →
              (p1 s1 ≠ Some (page1Target k)
               ∧ 0 ≤ page1Target k ≤ pageCount s1 - 1 →
                 generated s2 = generated s1 ++ [(page1, page1Target k)]
                 ∧ p1 s2 = Some (page1Target k))
              ∧ (¬ (p1 s1 ≠ Some (page1Target k)
                    ∧ 0 ≤ page1Target k ≤ pageCount s1 - 1) → s2 = s1)))
  ∧ ((∀ q, 0 < getPageHeight s q) →
     (Z.to_nat (calcPos s y) < fuel)%nat →
     0 < rowsPerPage s →
     pageCount s = ceilDiv (count s) (rowsPerPage s) →
     1 ≤ pageCount s →
     ∃ pi k s', positionToPageInfo s fuel y = Some pi
       ∧ leapFrog s pi = Some k
       ∧ update b fuel y s = Some s').
Proof.
  split; [intros k; split; [apply page0Target_even|apply page1Target_odd]|].
  split; [|apply update_returns].
  intros s' pi k Hpi Hk Hupd.
  destruct (update_unfold b fuel y s s' pi k Hpi Hk Hupd)
    as (s1 & u1 & s2 & u2 & E0 & E1 & Hg & Hp0 & Hp1).
  exists s1, u1, s2, u2. do 5 (split; [done|]).
  pose proof (updateSlot_spec _ _ _ _ _ _ _ E0) as (Hyes0 & Hno0 & _).
  pose proof (updateSlot_spec _ _ _ _ _ _ _ E1) as (Hyes1 & Hno1 & _).
  cbn [slotPage] in *.
  split; intros Hpc; (split; [intros [Hne Hin]|intros Hn]).
  - destruct Hyes0 as (? & ? & _); [|done].
    split; [done|]. apply isPageInRange_spec. by left.
  - apply Hno0. intros [Hne Hin]. apply Hn. split; [done|].
    apply isPageInRange_spec in Hin. lia.
  - destruct Hyes1 as (? & ? & _); [|done].
    split; [done|]. apply isPageInRange_spec. by left.
  - apply Hno1. intros [Hne Hin]. apply Hn. split; [done|].
    apply isPageInRange_spec in Hin. lia.
Qed.

Lemma freshList_heights q : 0 < getPageHeight freshList q.
Proof. apply getPageHeight_pos; [done|]. apply map_Forall_empty. Qed.

Lemma C7_witness :
  Z.even (page0Target 0) = true
  ∧ Z.odd (page1Target 0) = true
  ∧ (∃ s', update sampleBounds 1 0 sampleList = Some s'
       ∧ generated s' = [(page0, 0); (page1, 1)])
  ∧ (∃ s', update freshBounds 1 0 freshList = Some s'
       ∧ rowHeight s' = 20
       ∧ generated s' = [(page0, 0); (page1, 1)]).
Proof.
  destruct (C7_update_slot_targets sampleBounds 1%nat 0 sampleList)
    as (Htgt & Hrule & _).
  destruct (C7_update_slot_targets freshBounds 1%nat 0 freshList)
    as (_ & _ & Hret).
  destruct (Htgt 0) as ((He & _) & (Ho & _)).
  split; [exact He|]. split; [exact Ho|]. split.
  - edestruct Hrule as (s1 & u1 & s2 & u2 & E0 & E1 & Hg & _ & _ & H0 & H1);
      [vm_compute; reflexivity|vm_compute; reflexivity
      |vm_compute; reflexivity|].
    eexists. split; [vm_compute; reflexivity|reflexivity].
  - destruct Hret as (pi & k & s' & Hpi & Hk & Hupd);
      [apply freshList_heights|vm_compute; lia|reflexivity|reflexivity
      |discriminate|].
    exists s'. split; [exact Hupd|].
    vm_compute in Hupd. injection Hupd as <-. split; reflexivity.
Defined.

(** The index [k = 0] at the top of the sample list sends slot [page1] to
    page 1, where the odd candidate -1 clamped at page 0 would be page 0;
    and at [k = -1], reached by an overscroll of 800px, slot [page1]
    targets page -1, below any clamp.  On the list with no rows
    ([pageCount = 0]) slot [page0] is regenerated with target 0, which
    lies outside the empty range [0, pageCount-1]. *)
Lemma C7_counterexample :
  (pi ← positionToPageInfo sampleList 1 0; leapFrog sampleList pi) = Some 0
  ∧ page1TargetClampedAtZero 0 = 0
  ∧ page1Target 0 = 1
  ∧ (∃ s', update sampleBounds 1 0 sampleList = Some s' ∧ p1 s' = Some 1)
  ∧ (pi ← positionToPageInfo sampleList 1 (-800); leapFrog sampleList pi)
    = Some (-1)
  ∧ page1TargetClampedAtZero (-1) = 0
  ∧ page1Target (-1) = -1
  ∧ pageCount emptyList = 0
  ∧ ¬ (0 ≤ page0Target 0 ≤ pageCount emptyList - 1)
  ∧ (pi ← positionToPageInfo emptyList 1 0; leapFrog emptyList pi) = Some 0
  ∧ (∃ s', update emptyBounds 1 0 emptyList = Some s'
       ∧ generated emptyList = []
       ∧ generated s' = [(page0, page0Target 0)]).
Proof.
  split_and!; try (vm_compute; reflexivity).
  - eexists. split; [vm_compute; reflexivity|reflexivity].
  - vm_compute. intros [_ H]. by apply H.
  - eexists. split; [vm_compute; reflexivity|]. split; reflexivity.
Qed.

(** *** The empty list *)

Lemma ceilDiv_0 r : ceilDiv 0 r = 0.
Proof. unfold ceilDiv. cbn. by rewrite Zdiv_0_l. Qed.

(** With no rows, [updateMetrics] (defined whenever [rowsPerPage] is not
    0) sets [pageCount] and [portSize] to 0. *)
Lemma updateMetrics_empty b s :
  count s = 0 → rowsPerPage s ≠ 0 →
  ∃ s', updateMetrics b s = Some s' ∧ pageCount s' = 0 ∧ portSize s' = 0.
Proof.
  intros Hc Hr. unfold updateMetrics.
  destruct (Z.eqb_spec (rowsPerPage s) 0); [done|].
  eexists. split; [done|]. cbn. by rewrite Hc, ceilDiv_0.
Qed.

(** With no rows [update] never writes slot [page1], and the only page it
    can generate is page 0, into slot [page0]. *)
Lemma update_empty b fuel y s s' :
  count s = 0 → pageCount s = 0 →
  update b fuel y s = Some s' →
  p1 s' = p1 s
  ∧ (generated s' = generated s ∨ generated s' = generated s ++ [(page0, 0)]).
Proof.
  intros Hc Hpc Hupd.
  destruct (positionToPageInfo s fuel y) as [pi|] eqn:Hpi;
    [|by unfold update in Hupd; rewrite Hpi in Hupd].
  destruct (leapFrog s pi) as [k|] eqn:Hk.
  2:{ unfold update in Hupd. rewrite Hpi in Hupd. cbn in Hupd.
      rewrite Hk in Hupd. injection Hupd as <-. auto. }
  destruct (update_unfold b fuel y s s' pi k Hpi Hk Hupd)
    as (s1 & u1 & s2 & u2 & E0 & E1 & Hg & _ & Hp1).
  pose proof (updateSlot_spec _ _ _ _ _ _ _ E0) as (Hyes0 & Hno0 & Hk0).
  pose proof (updateSlot_spec _ _ _ _ _ _ _ E1) as (Hyes1 & Hno1 & _).
  cbn [slotPage] in *.
  assert (pageCount s1 = 0 ∧ p1 s1 = p1 s
          ∧ (generated s1 = generated s
             ∨ generated s1 = generated s ++ [(page0, 0)])) as (Hpc1 & Hq & Hg1).
  { destruct (decide (p0 s ≠ Some (page0Target k)
                      ∧ isPageInRange s (page0Target k) = true)) as [Hy|Hn].
    - destruct (Hyes0 Hy) as (Hgen & _ & _ & _ & _ & Hpcs).
      destruct Hy as [_ Hin]. apply isPageInRange_spec in Hin.
      assert (page0Target k = 0) as Ht by lia. rewrite Ht in Hgen.
      split; [|auto]. rewrite Hc, ceilDiv_0 in Hpcs. lia.
    - destruct (Hno0 Hn) as [-> _]. auto. }
  assert (s2 = s1) as ->.
  { apply Hno1. intros [_ Hin]. apply isPageInRange_spec in Hin.
    destruct (page1Target_odd k) as (Hodd & _).
    assert (page1Target k = 0) as Ht by lia. by rewrite Ht in Hodd. }
  rewrite Hp1, Hg. auto.
Qed.

(** C8.  A freshly reset list with [count = 0] has [pageCount = 0], and
    [isPageInRange] still accepts page 0 there: [update] at scroll
    position 0 calls [generatePage] for page 0 with zero rows and records
    it in slot [page0].  Slot [page1] stays empty. *)
Theorem C8_empty_list_generates_page0 :
  count emptyList = 0
  ∧ updateMetrics emptyBounds emptyList = Some emptyList
  ∧ pageCount emptyList = 0
  ∧ isPageInRange emptyList 0 = true
  ∧ ∃ s', update emptyBounds 1 0 emptyList = Some s'
      ∧ generated s' = [(page0, 0)]
      ∧ p0 s' = Some 0
      ∧ content (node0 s') = Some (0, 0)
      ∧ p1 s' = None ∧ content (node1 s') = None.
Proof.
  split_and!; try (vm_compute; reflexivity).
  eexists. split; [vm_compute; reflexivity|]. split_and!; reflexivity.
Qed.

(** *** Layout of the pages *)

(** Pages are laid out one after the other from offset 0: page 0 and
    every non-positive page number sit at 0, page [p + 1] starts where
    page [p] ends, and with positive heights later pages start strictly
    further down. *)
Theorem pageToPosition_layout s p :
  0 ≤ p →
  pageToPosition s (- p) = 0
  ∧ pageToPosition s (p + 1) = pageToPosition s p + getPageHeight s p
  ∧ ((∀ q, 0 < getPageHeight s q) →
     ∀ r, p < r → pageToPosition s p < pageToPosition s r).
Proof.
  intros Hp. rewrite !pageToPosition_sum. split_and!.
  - apply heightsBelow_nonpos. lia.
  - by apply heightsBelow_succ.
  - intros Hpos r Hr. rewrite pageToPosition_sum.
    by apply heightsBelow_lt.
Qed.

Lemma pageToPosition_layout_witness :
  pageToPosition measuredList 0 = 0
  ∧ pageToPosition measuredList 1 = 1200
  ∧ pageToPosition measuredList 0 < pageToPosition measuredList 2.
Proof.
  destruct (pageToPosition_layout measuredList 0) as (H0 & H1 & H2); [lia|].
  split; [exact H0|]. split; [exact H1|].
  apply H2; [apply measuredList_heights|lia].
Defined.

(** With positive heights and enough fuel [positionToPageInfo] finds,
    for a non-negative logical position, the page that contains it: the
    page starts at or before the position, [height] is that page's height
    and [pos] is the offset of the position inside the page. *)
Theorem positionToPageInfo_locates s fuel inY :
  (∀ q, 0 < getPageHeight s q) →
  0 ≤ calcPos s inY →
  (Z.to_nat (calcPos s inY) < fuel)%nat →
  ∃ pi, positionToPageInfo s fuel inY = Some pi
    ∧ 0 ≤ no pi
    ∧ height pi = getPageHeight s (no pi)
    ∧ pageToPosition s (no pi) + pos pi = calcPos s inY
    ∧ 0 ≤ pos pi < height pi.
Proof.
  intros Hpos Hnn Hfuel.
  destruct (positionToPageInfo_spec s Hpos fuel inY Hnn Hfuel)
    as (n & Hn & Heq & Hlo & Hhi).
  eexists. split; [exact Heq|]. cbn [no height pos].
  rewrite pageToPosition_sum. rewrite heightsBelow_succ in Hhi by done.
  split_and!; lia.
Qed.

Lemma positionToPageInfo_locates_witness :
  positionToPageInfo measuredList 1251 1250
  = Some {| no := 1; height := 1000; pos := 50 |}.
Proof.
  destruct (positionToPageInfo_locates measuredList 1251 1250
              measuredList_heights) as (pi & Heq & _);
    [vm_compute; discriminate|vm_compute; lia|].
  rewrite Heq. vm_compute in Heq. congruence.
Defined.

(** *** updateMetrics and invalidateMetrics *)

(** Whenever [rowsPerPage] is not 0, [updateMetrics] returns with
    [pageCount] the ceiling of [count / rowsPerPage], [portSize] the sum
    of the heights of exactly these pages, [scrollerHeight] the measured
    viewport and the port as tall as the larger of the two.  For a
    positive [rowsPerPage] the pages cover the rows without a spare
    page. *)
Theorem updateMetrics_establishes b s :
  rowsPerPage s ≠ 0 →
  ∃ s', updateMetrics b s = Some s'
    ∧ metricsInv s'
    ∧ scrollerHeight s' = viewportHeight b
    ∧ portHeightPx s' = Z.max (viewportHeight b) (portSize s')
    ∧ pageHeights s' = pageHeights s
    ∧ (0 < rowsPerPage s →
       (pageCount s' - 1) * rowsPerPage s < count s
       ∧ count s ≤ pageCount s' * rowsPerPage s).
Proof.
  intros Hr. unfold updateMetrics.
  destruct (Z.eqb_spec (rowsPerPage s) 0); [done|].
  eexists. split; [reflexivity|].
  unfold metricsInv. cbn. rewrite sumPageHeights_heightsBelow.
  split; [split; [done|]; split; [done|]; by apply heightsBelow_ext|].
  do 3 (split; [done|]).
  intros Hpos. by apply ceilDiv_bounds.
Qed.

Lemma updateMetrics_establishes_witness :
  ∃ s', updateMetrics sampleBounds measuredList = Some s'
    ∧ pageCount s' = 10 ∧ portSize s' = 10200 ∧ portHeightPx s' = 10200.
Proof.
  destruct (updateMetrics_establishes sampleBounds measuredList)
    as (s' & Heq & (_ & Hpc & Hps) & _ & Hpx & _); [discriminate|].
  exists s'. split; [exact Heq|].
  vm_compute in Heq. injection Heq as <-. split_and!; reflexivity.
Defined.

Lemma heightsBelow_uniform s d n :
  (∀ q, getPageHeight s q = d) → heightsBelow s n = Z.max 0 n * d.
Proof.
  intros Hd. destruct (decide (n ≤ 0)) as [Hn|Hn].
  { rewrite heightsBelow_nonpos, Z.max_l by done. lia. }
  rewrite Z.max_r by lia.
  rewrite <- (Z2Nat.id n) by lia. generalize (Z.to_nat n) as i. clear Hn n.
  induction i as [|i IH]; [by rewrite heightsBelow_nonpos|].
  rewrite heightsBelow_S, IH, Hd. lia.
Qed.

(** [invalidateMetrics] forgets every measurement: afterwards each page
    is estimated at [rowsPerPage * 100] and [portSize] is that estimate
    times the number of pages. *)
Theorem invalidateMetrics_uniform b s :
  rowsPerPage s ≠ 0 →
  ∃ s', invalidateMetrics b s = Some s'
    ∧ rowHeight s' = 0
    ∧ pageHeights s' = ∅
    ∧ (∀ q, getPageHeight s' q = rowsPerPage s * 100)
    ∧ pageCount s' = ceilDiv (count s) (rowsPerPage s)
    ∧ portSize s' = Z.max 0 (pageCount s') * (rowsPerPage s * 100).
Proof.
  intros Hr. unfold invalidateMetrics, updateMetrics. cbn.
  destruct (Z.eqb_spec (rowsPerPage s) 0); [done|].
  eexists. split; [reflexivity|]. cbn.
  assert (∀ sz q,
            getPageHeight
              (set_metrics (rowsPerPage s * 100)
                 (ceilDiv (count s) (rowsPerPage s)) sz
                 (set_rowHeight 0 (set_pageHeights ∅ s))) q
            = rowsPerPage s * 100) as Hget.
  { intros sz q. unfold getPageHeight. cbn. by rewrite lookup_empty. }
  split_and!; try done.
  rewrite sumPageHeights_heightsBelow. apply heightsBelow_uniform.
  apply Hget.
Qed.

Lemma invalidateMetrics_uniform_witness :
  ∃ s', invalidateMetrics sampleBounds measuredList = Some s'
    ∧ getPageHeight s' 0 = 5000 ∧ portSize s' = 50000.
Proof.
  destruct (invalidateMetrics_uniform sampleBounds measuredList)
    as (s' & Heq & _ & _ & Hget & Hpc & Hps); [discriminate|].
  exists s'. split; [exact Heq|]. split; [apply Hget|].
  rewrite Hps, Hpc. reflexivity.
Defined.

(** *** What [generatePage] and [update] keep *)

Lemma sameHeights_trans s1 s2 s3 :
  sameHeights s1 s2 → sameHeights s2 s3 → sameHeights s1 s3.
Proof.
  intros (A1 & A2 & A3 & A4 & A5 & A6 & A7 & A8)
         (B1 & B2 & B3 & B4 & B5 & B6 & B7 & B8).
  unfold sameHeights. split_and!; congruence.
Qed.

Lemma metricsInv_sameHeights s s' :
  sameHeights s s' → metricsInv s → metricsInv s'.
Proof.
  intros Hs (Hr & Hpc & Hps).
  pose proof Hs as (_ & _ & Eps & Epc & Ec & Er & _).
  unfold metricsInv. rewrite Eps, Epc, Ec, Er. split_and!; try done.
  rewrite Hps. apply heightsBelow_ext. intros q.
  symmetry. by apply sameHeights_getPageHeight.
Qed.

(** The first half of [generatePage] touches no metric; the second half
    is [recordPageHeight], possibly after the row-height inference. *)
Lemma generatePage_cases b p t s s' :
  generatePage b p t s = Some s' →
  ∃ s1, untouched s s1
    ∧ (s' = recordPageHeight p (renderedHeight b t p) s1
       ∨ (rowHeight s = 0 ∧ 0 < renderedHeight b t p
          ∧ ∃ v s2, updateMetrics b (set_rowHeight v s1) = Some s2
              ∧ s' = recordPageHeight p (renderedHeight b t p) s2)).
Proof.
  unfold generatePage. cbv zeta.
  match goal with |- context [set_node t ?n ?s0] =>
    set (s1 := set_node t n s0) end.
  assert (untouched s s1) as Hu by (subst s1; destruct t; done).
  assert (rowHeight s1 = rowHeight s) as Hrh by apply Hu.
  clearbody s1. rewrite Hrh.
  destruct (Z.eqb_spec (rowHeight s) 0) as [H0|H0];
    destruct (Z.ltb_spec 0 (renderedHeight b t p)) as [Hh|Hh];
    cbn [andb]; try (cbn; intros [= <-]; exists s1; by auto).
  destruct (_ =? 0); [done|].
  match goal with |- context [updateMetrics b ?x] =>
    destruct (updateMetrics b x) as [s2|] eqn:Em; [|done] end.
  cbn. intros [= <-]. exists s1. split; [done|]. right. eauto 10.
Qed.

Lemma recordPageHeight_sum p h s :
  0 ≤ p < pageCount s →
  portSize s = heightsBelow s (pageCount s) →
  portSize (recordPageHeight p h s)
  = heightsBelow (recordPageHeight p h s) (pageCount (recordPageHeight p h s)).
Proof.
  intros Hp Hs. destruct (fixedHeight s) eqn:Hf.
  - unfold recordPageHeight. by rewrite Hf.
  - by apply (recordPageHeight_spec p h s Hf).
Qed.

Lemma generatePage_metricsInv b p t s s' :
  0 ≤ p < pageCount s →
  generatePage b p t s = Some s' →
  metricsInv s → metricsInv s' ∧ pageCount s' = pageCount s.
Proof.
  intros Hp Hg Hinv.
  destruct (generatePage_cases b p t s s' Hg) as (s1 & Hu & Hcase).
  destruct Hu as [Hsh _].
  pose proof (metricsInv_sameHeights s s1 Hsh Hinv) as (Hr1 & Hpc1 & Hps1).
  pose proof Hsh as (_ & _ & _ & Epc & Ec & Er & _).
  assert (∀ s2, rowsPerPage s2 ≠ 0 →
                pageCount s2 = ceilDiv (count s2) (rowsPerPage s2) →
                pageCount s2 = pageCount s →
                portSize s2 = heightsBelow s2 (pageCount s2) →
                metricsInv (recordPageHeight p (renderedHeight b t p) s2)
                ∧ pageCount (recordPageHeight p (renderedHeight b t p) s2)
                  = pageCount s) as Hrec.
  { intros s2 Hr2 Hpc2 Hpcs Hps2.
    destruct (recordPageHeight_frame p (renderedHeight b t p) s2)
      as [(_ & _ & _ & _ & _ & Fc & Fr) Fpc].
    split; [|congruence]. unfold metricsInv. rewrite Fc, Fr, Fpc.
    split_and!; try done. rewrite <- Fpc.
    apply recordPageHeight_sum; [lia|done]. }
  destruct Hcase as [->|(_ & _ & v & s2 & Em & ->)].
  - apply Hrec; try done.
  - destruct (updateMetrics_portSize _ _ _ Em) as [Hps2 Hpc2].
    destruct (updateMetrics_frame _ _ _ Em) as [(_ & _ & _ & _ & _ & Fc & Fr) _].
    cbn in Hpc2, Fc, Fr.
    apply Hrec; [congruence|congruence|congruence|done].
Qed.

Lemma generatePage_cachePositive b p t s s' :
  generatePage b p t s = Some s' → cachePositive s → cachePositive s'.
Proof.
  intros Hg Hc.
  destruct (generatePage_cases b p t s s' Hg) as (s1 & [Hsh _] & Hcase).
  assert (∀ s2, pageHeights s2 = pageHeights s →
                cachePositive (recordPageHeight p (renderedHeight b t p) s2))
    as Hrec.
  { intros s2 Hph. unfold cachePositive, recordPageHeight.
    destruct (fixedHeight s2); [by rewrite Hph|].
    destruct (Z.ltb_spec 0 (renderedHeight b t p));
      rewrite ?andb_false_r; [|by rewrite Hph].
    destruct (negb _); cbn [andb]; [|by rewrite Hph].
    cbn. rewrite Hph. by apply map_Forall_insert_2. }
  destruct Hcase as [->|(_ & _ & v & s2 & Em & ->)].
  - apply Hrec. apply Hsh.
  - apply Hrec. unfold updateMetrics in Em.
    destruct (rowsPerPage _ =? 0); [done|]. injection Em as <-. cbn.
    apply Hsh.
Qed.

(** One guarded block of [update], as a case split. *)
Lemma updateSlot_cases b t p s u s' u' :
  updateSlot b t p (s, u) = Some (s', u') →
  (s' = s ∧ u' = u)
  ∨ (isPageInRange s p = true
     ∧ ∃ s1, generatePage b p t s = Some s1 ∧ sameHeights s1 s').
Proof.
  unfold updateSlot. cbn [fst snd].
  destruct (negb _); cbn [andb]; [|intros [= <- <-]; by left].
  destruct (isPageInRange s p); [|intros [= <- <-]; by left].
  destruct (generatePage b p t s) as [s1|]; [|done]. cbn.
  intros [= <- <-]. right. split; [done|]. exists s1. split; [done|].
  by destruct t.
Qed.

(** Any property that [generatePage] keeps for accepted pages and that
    only depends on the page metrics is kept by [update]. *)
Lemma update_preserves (P : List → Prop) :
  (∀ s s1, sameHeights s s1 → P s → P s1) →
  (∀ b p t s s', isPageInRange s p = true →
     generatePage b p t s = Some s' → P s → P s') →
  ∀ b fuel y s s', update b fuel y s = Some s' → P s → P s'.
Proof.
  intros Hsame Hgen b fuel y s s' Hupd HP.
  assert (∀ t p s u s' u', updateSlot b t p (s, u) = Some (s', u') →
            P s → P s') as Hslot.
  { intros t p s0 u s0' u' E HP0.
    destruct (updateSlot_cases _ _ _ _ _ _ _ E)
      as [[-> _]|(Hin & s1 & Hg & Hsh)]; [done|].
    eapply Hsame; [exact Hsh|]. by eapply Hgen. }
  unfold update in Hupd.
  destruct (positionToPageInfo s fuel y) as [pi|]; [|done].
  cbn [mbind option_bind] in Hupd.
  destruct (leapFrog s pi) as [k|]; [|by injection Hupd as <-].
  destruct (updateSlot b page0 _ _) as [[s1 u1]|] eqn:E0; [|done].
  cbn [mbind option_bind] in Hupd.
  destruct (updateSlot b page1 _ _) as [[s2 u2]|] eqn:E1; [|done].
  cbn [mbind option_bind fst snd] in Hupd.
  assert (P s2) as HP2 by (eapply Hslot; [exact E1|]; eapply Hslot; eauto).
  destruct (u2 && negb (fixedHeight s2)); injection Hupd as <-; [|done].
  eapply Hsame; [|exact HP2].
  unfold adjustPortSize, adjustBottomPage, positionPage.
  by destruct (_ <=? _).
Qed.

(** As long as the list has at least one page, [update] keeps the
    metrics up to date whatever the slots measure: [pageCount] is
    unchanged and still the ceiling of [count / rowsPerPage], and
    [portSize] is still the sum of the heights of all pages. *)
Theorem update_keeps_metrics b fuel y s s' :
  metricsInv s → 1 ≤ pageCount s →
  update b fuel y s = Some s' →
  metricsInv s' ∧ pageCount s' = pageCount s.
Proof.
  intros Hinv Hpc Hupd.
  apply (update_preserves
           (fun x => metricsInv x ∧ pageCount x = pageCount s)
           ) with (b := b) (fuel := fuel) (y := y) (s := s); try done.
  - intros s0 s1 Hsh [Hi He]. split; [by eapply metricsInv_sameHeights|].
    destruct Hsh as (_ & _ & _ & -> & _). done.
  - intros b0 p t s0 s0' Hin Hg [Hi He].
    apply isPageInRange_spec in Hin.
    destruct (generatePage_metricsInv b0 p t s0 s0') as [Hi' He'];
      [lia|done|done|]. split; [done|congruence].
Qed.

Lemma update_keeps_metrics_witness :
  ∃ s', update sampleBounds 1 0 measuredList = Some s'
    ∧ pageCount s' = 10
    ∧ portSize s' = heightsBelow s' 10.
Proof.
  assert (∃ s', update sampleBounds 1 0 measuredList = Some s') as [s' Hs'].
  { eexists. vm_compute. reflexivity. }
  destruct (update_keeps_metrics sampleBounds 1 0 measuredList s')
    as [(_ & _ & Hps) Hpc];
    [split_and!; [discriminate|reflexivity|reflexivity]|discriminate
    |exact Hs'|].
  exists s'. split; [exact Hs'|]. split; [exact Hpc|].
  rewrite Hps. f_equal. exact Hpc.
Defined.

(** [generatePage] only ever stores positive heights, so a cache of
    positive measurements stays one across [update]. *)
Theorem update_keeps_cache_positive b fuel y s s' :
  cachePositive s → update b fuel y s = Some s' → cachePositive s'.
Proof.
  intros Hc Hupd.
  apply (update_preserves cachePositive) with (b := b) (fuel := fuel)
    (y := y) (s := s); try done.
  - intros s0 s1 (Hph & _) H0. unfold cachePositive. by rewrite Hph.
  - intros b0 p t s0 s0' _ Hg H0. by eapply generatePage_cachePositive.
Qed.

Lemma update_keeps_cache_positive_witness :
  ∃ s', update freshBounds 1 0 measuredList = Some s' ∧ cachePositive s'.
Proof.
  assert (∃ s', update freshBounds 1 0 measuredList = Some s') as [s' Hs'].
  { eexists. vm_compute. reflexivity. }
  exists s'. split; [exact Hs'|].
  apply (update_keeps_cache_positive freshBounds 1 0 measuredList s');
    [|exact Hs'].
  apply map_Forall_singleton. reflexivity.
Defined.

(** *** The rows of a page *)

(** For a list whose [pageCount] is up to date, every page in
    [0, pageCount-1] is generated from a non-empty window of rows that
    starts at [rowsPerPage * p], stays inside [0, count), is full for
    every page but the last, and ends at [count] for the last one. *)
Theorem generatePage_row_window b p t s s' :
  0 < rowsPerPage s →
  pageCount s = ceilDiv (count s) (rowsPerPage s) →
  0 ≤ p ≤ pageCount s - 1 →
  generatePage b p t s = Some s' →
  ∃ r n, content (node t s') = Some (r, n)
    ∧ r = rowsPerPage s * p
    ∧ 0 ≤ r ∧ 1 ≤ n ≤ rowsPerPage s ∧ r + n ≤ count s
    ∧ (p < pageCount s - 1 → n = rowsPerPage s)
    ∧ (p = pageCount s - 1 → r + n = count s).
Proof.
  intros Hr Hpc Hp Hg.
  apply generatePage_trace in Hg as (_ & _ & _ & _ & _ & Hcont & _).
  pose proof (ceilDiv_bounds (count s) (rowsPerPage s) Hr) as [Hlo Hhi].
  rewrite <- Hpc in Hlo, Hhi.
  eexists _, _. split; [exact Hcont|]. split; [done|].
  split_and!; try nia.
Qed.

Lemma generatePage_row_window_witness :
  ∃ s', generatePage sampleBounds 9 page1 sampleList = Some s'
    ∧ content (node1 s') = Some (450, 50).
Proof.
  assert (∃ s', generatePage sampleBounds 9 page1 sampleList = Some s')
    as [s' Hs'] by (eexists; vm_compute; reflexivity).
  destruct (generatePage_row_window sampleBounds 9 page1 sampleList s')
    as (r & n & Hc & -> & _ & _ & _ & _ & Hlast);
    [reflexivity|reflexivity|vm_compute; intuition discriminate|exact Hs'|].
  exists s'. split; [exact Hs'|]. cbn [node] in Hc. rewrite Hc.
  specialize (Hlast eq_refl). cbn in Hlast. f_equal. f_equal. lia.
Defined.

(** *** The two slots across [update] *)

(** Slot [page0] only ever holds even pages and slot [page1] odd ones,
    never a negative page; so the two slots never hold the same page. *)
Theorem update_keeps_slots_alternating b fuel y s s' :
  slotsAlternate s → update b fuel y s = Some s' →
  slotsAlternate s' ∧ ∀ p, p0 s' = Some p → p1 s' ≠ Some p.
Proof.
  intros [H0 H1] Hupd.
  assert (slotsAlternate s') as Hs'.
  { destruct (positionToPageInfo s fuel y) as [pi|] eqn:Hpi;
      [|by unfold update in Hupd; rewrite Hpi in Hupd].
    destruct (leapFrog s pi) as [k|] eqn:Hk.
    2:{ unfold update in Hupd. rewrite Hpi in Hupd. cbn in Hupd.
        rewrite Hk in Hupd. by injection Hupd as <-. }
    destruct (update_unfold b fuel y s s' pi k Hpi Hk Hupd)
      as (s1 & u1 & s2 & u2 & E0 & E1 & _ & Hp0 & Hp1).
    pose proof (updateSlot_spec _ _ _ _ _ _ _ E0) as (Hy0 & Hn0 & Ho0).
    pose proof (updateSlot_spec _ _ _ _ _ _ _ E1) as (Hy1 & Hn1 & Ho1).
    cbn [slotPage] in *.
    destruct (page0Target_even k) as [Hev _].
    destruct (page1Target_odd k) as [Hod _].
    split; intros p Hp.
    - rewrite Hp0, Ho1 in Hp.
      destruct (decide (p0 s ≠ Some (page0Target k)
                        ∧ isPageInRange s (page0Target k) = true)) as [Hc|Hc].
      + destruct (Hy0 Hc) as (_ & Hset & _). rewrite Hset in Hp.
        injection Hp as <-. split; [done|].
        destruct Hc as [_ Hin]. apply isPageInRange_spec in Hin. lia.
      + destruct (Hn0 Hc) as [-> _]. by apply H0.
    - rewrite Hp1 in Hp.
      destruct (decide (p1 s1 ≠ Some (page1Target k)
                        ∧ isPageInRange s1 (page1Target k) = true)) as [Hc|Hc].
      + destruct (Hy1 Hc) as (_ & Hset & _). rewrite Hset in Hp.
        injection Hp as <-. split; [done|].
        destruct Hc as [_ Hin]. apply isPageInRange_spec in Hin.
        assert (page1Target k ≠ 0) by (intros E; by rewrite E in Hod). lia.
      + destruct (Hn1 Hc) as [-> _]. rewrite Ho0 in Hp. by apply H1. }
  split; [done|]. intros p Hp Hq.
  destruct Hs' as [Ha Hb].
  destruct (Ha p Hp) as [He _]. destruct (Hb p Hq) as [Ho _].
  rewrite <- Z.negb_even, He in Ho. done.
Qed.

Lemma update_keeps_slots_alternating_witness :
  ∃ s', update sampleBounds 1 0 sampleList = Some s'
    ∧ p0 s' = Some 0 ∧ p1 s' ≠ Some 0.
Proof.
  assert (∃ s', update sampleBounds 1 0 sampleList = Some s') as [s' Hs']
    by (eexists; vm_compute; reflexivity).
  destruct (update_keeps_slots_alternating sampleBounds 1 0 sampleList s')
    as [_ Hne]; [split; intros p [=]|exact Hs'|].
  exists s'. split; [exact Hs'|].
  assert (p0 s' = Some 0) as Hp0
    by (vm_compute in Hs'; injection Hs' as <-; reflexivity).
  split; [exact Hp0|]. by apply Hne.
Defined.

(** *** Repeating [update] *)

Lemma positionToPageInfo_loop_untouched s s' fuel pg p h :
  untouched s s' →
  positionToPageInfo_loop s' fuel pg p h
  = positionToPageInfo_loop s fuel pg p h.
Proof.
  intros [Hsh _]. revert pg p h.
  induction fuel as [|fuel IH]; intros pg p h; [done|].
  cbn [positionToPageInfo_loop].
  rewrite (sameHeights_getPageHeight s s') by done. by rewrite IH.
Qed.

Lemma positionToPageInfo_untouched s s' fuel y :
  untouched s s' → positionToPageInfo s' fuel y = positionToPageInfo s fuel y.
Proof.
  intros Hu. unfold positionToPageInfo, calcPos.
  rewrite (positionToPageInfo_loop_untouched s s') by done.
  destruct Hu as [(_ & Hd & Hps & _ & _ & _ & _ & Hbu) [_ Hsh]].
  by rewrite Hd, Hps, Hbu, Hsh.
Qed.

Lemma leapFrog_untouched s s' pi :
  untouched s s' → leapFrog s' pi = leapFrog s pi.
Proof. intros [_ [_ Hsh]]. unfold leapFrog. by rewrite Hsh. Qed.

Lemma isPageInRange_untouched s s' p :
  untouched s s' → isPageInRange s' p = isPageInRange s p.
Proof.
  intros [(_ & _ & _ & Hpc & _) _]. unfold isPageInRange. by rewrite Hpc.
Qed.

Lemma updateSlot_noop b t p s u :
  slotPage t s = Some p ∨ isPageInRange s p = false →
  updateSlot b t p (s, u) = Some (s, u).
Proof.
  intros Hc. unfold updateSlot. cbn [fst snd].
  destruct Hc as [-> | ->]; [|by rewrite andb_false_r].
  cbn. by rewrite Z.eqb_refl.
Qed.

(** If an [update] left the metrics as they were, repeating it at the
    same scroll position regenerates nothing: the second call returns
    the state unchanged, whatever the slots would measure. *)
Lemma update_twice b b2 fuel y s s' :
  update b fuel y s = Some s' → untouched s s' →
  update b2 fuel y s' = Some s'.
Proof.
  intros Hupd Hu.
  destruct (positionToPageInfo s fuel y) as [pi|] eqn:Hpi;
    [|by unfold update in Hupd; rewrite Hpi in Hupd].
  unfold update at 1.
  rewrite (positionToPageInfo_untouched s s') by done. rewrite Hpi.
  cbn [mbind option_bind].
  rewrite (leapFrog_untouched s s') by done.
  destruct (leapFrog s pi) as [k|] eqn:Hk; [|done].
  destruct (update_unfold b fuel y s s' pi k Hpi Hk Hupd)
    as (s1 & u1 & s2 & u2 & E0 & E1 & _ & Hp0 & Hp1).
  pose proof (updateSlot_spec _ _ _ _ _ _ _ E0) as (Hy0 & Hn0 & Ho0).
  pose proof (updateSlot_spec _ _ _ _ _ _ _ E1) as (Hy1 & Hn1 & Ho1).
  cbn [slotPage] in *.
  assert (pageCount s2 = pageCount s) as Hpc2.
  { destruct Hu as [(_ & _ & _ & Hpc & _) _]. rewrite <- Hpc.
    unfold update in Hupd. rewrite Hpi in Hupd. cbn in Hupd.
    rewrite Hk, E0 in Hupd. cbn in Hupd. rewrite E1 in Hupd. cbn in Hupd.
    destruct (u2 && negb (fixedHeight s2)); injection Hupd as <-; [|done].
    unfold adjustPortSize, adjustBottomPage, positionPage.
    by destruct (_ <=? _). }
  assert (p0 s' = Some (page0Target k)
          ∨ isPageInRange s' (page0Target k) = false) as H0.
  { rewrite (isPageInRange_untouched s s') by done. rewrite Hp0, Ho1.
    destruct (decide (p0 s ≠ Some (page0Target k)
                      ∧ isPageInRange s (page0Target k) = true)) as [Hc|Hc].
    - left. by apply Hy0.
    - destruct (Hn0 Hc) as [-> _].
      destruct (decide (p0 s = Some (page0Target k))); [by left|right].
      apply not_true_is_false. intros Hin. by apply Hc. }
  assert (p1 s' = Some (page1Target k)
          ∨ isPageInRange s' (page1Target k) = false) as H1.
  { rewrite (isPageInRange_untouched s s') by done. rewrite Hp1.
    destruct (decide (p1 s1 ≠ Some (page1Target k)
                      ∧ isPageInRange s1 (page1Target k) = true)) as [Hc|Hc].
    - left. by apply Hy1.
    - destruct (Hn1 Hc) as [-> _].
      destruct (decide (p1 s1 = Some (page1Target k))); [by left|right].
      apply not_true_is_false. intros Hin. apply Hc. split; [done|].
      unfold isPageInRange in *. by rewrite Hpc2. }
  rewrite (updateSlot_noop b2 page0) by done. cbn [mbind option_bind].
  rewrite (updateSlot_noop b2 page1) by done. done.
Qed.

Lemma generatePage_fixedHeight b p t s s' :
  fixedHeight s = true → rowHeight s ≠ 0 →
  generatePage b p t s = Some s' → untouched s s'.
Proof.
  intros Hf Hrh Hg.
  destruct (generatePage_cases b p t s s' Hg) as (s1 & Hu & Hcase).
  destruct Hcase as [->|(H0 & _)]; [|done].
  unfold recordPageHeight.
  destruct Hu as [Hsh Hrest]. pose proof Hsh as (_&_&_&_&_&_& Hfx &_).
  rewrite Hfx, Hf. by split.
Qed.

Lemma untouched_trans s1 s2 s3 :
  untouched s1 s2 → untouched s2 s3 → untouched s1 s3.
Proof.
  intros (A & A1 & A2) (B & B1 & B2).
  split; [by eapply sameHeights_trans|]. split; congruence.
Qed.

Lemma untouched_refl s : untouched s s.
Proof. by repeat split. Qed.

Lemma update_fixedHeight_untouched b fuel y s s' :
  fixedHeight s = true → rowHeight s ≠ 0 →
  update b fuel y s = Some s' → untouched s s'.
Proof.
  intros Hf Hrh Hupd.
  assert (∀ t p s0 u s0' u',
            fixedHeight s0 = true → rowHeight s0 ≠ 0 →
            updateSlot b t p (s0, u) = Some (s0', u') →
            untouched s0 s0') as Hslot.
  { intros t p s0 u s0' u' Hf0 Hr0. unfold updateSlot. cbn [fst snd].
    destruct (_ && _); [|intros [= <- _]; apply untouched_refl].
    destruct (generatePage b p t s0) as [s1|] eqn:Eg; [|done]. cbn.
    intros [= <- _].
    eapply untouched_trans; [by eapply generatePage_fixedHeight|].
    by destruct t. }
  unfold update in Hupd.
  destruct (positionToPageInfo s fuel y) as [pi|]; [|done].
  cbn [mbind option_bind] in Hupd.
  destruct (leapFrog s pi) as [k|];
    [|injection Hupd as <-; apply untouched_refl].
  destruct (updateSlot b page0 _ _) as [[s1 u1]|] eqn:E0; [|done].
  cbn [mbind option_bind] in Hupd.
  destruct (updateSlot b page1 _ _) as [[s2 u2]|] eqn:E1; [|done].
  cbn [mbind option_bind fst snd] in Hupd.
  pose proof (Hslot _ _ _ _ _ _ Hf Hrh E0) as U1.
  assert (fixedHeight s1 = true ∧ rowHeight s1 ≠ 0) as [Hf1 Hr1].
  { destruct U1 as [(_&_&_&_&_&_& Hx &_) [Hy _]]. by rewrite Hx, Hy. }
  pose proof (Hslot _ _ _ _ _ _ Hf1 Hr1 E1) as U2.
  assert (fixedHeight s2 = true) as Hf2.
  { destruct U2 as [(_&_&_&_&_&_& Hx &_) _]. by rewrite Hx. }
  rewrite Hf2, andb_false_r in Hupd. injection Hupd as <-.
  by eapply untouched_trans.
Qed.

(** In fixed-height mode with the row height known, [update] is
    idempotent: a second call at the same scroll position generates no
    page and returns the state of the first call unchanged. *)
Theorem update_idempotent_fixedHeight b b2 fuel y s s' :
  fixedHeight s = true → rowHeight s ≠ 0 →
  update b fuel y s = Some s' →
  update b2 fuel y s' = Some s'.
Proof.
  intros Hf Hrh Hupd. eapply update_twice; [exact Hupd|].
  by eapply update_fixedHeight_untouched.
Qed.

Lemma update_idempotent_fixedHeight_witness :
  ∃ s', update sampleBounds 1 0 fixedList = Some s'
    ∧ update freshBounds 1 0 s' = Some s'
    ∧ generated s' = [(page0, 0); (page1, 1)].
Proof.
  assert (∃ s', update sampleBounds 1 0 fixedList = Some s') as [s' Hs']
    by (eexists; vm_compute; reflexivity).
  exists s'. split; [exact Hs'|]. split.
  - apply (update_idempotent_fixedHeight sampleBounds freshBounds 1 0
             fixedList s'); [reflexivity|discriminate|exact Hs'].
  - vm_compute in Hs'. injection Hs' as <-. reflexivity.
Defined.

(** *** Re-rendering from scratch *)

(** What an [update] that follows [invalidatePages] leaves in the
    slots. *)
Lemma invalidatePages_then_update b fuel y s s' pi k :
  pageCount s = ceilDiv (count s) (rowsPerPage s) →
  positionToPageInfo s fuel y = Some pi →
  leapFrog s pi = Some k →
  update b fuel y (invalidatePages s) = Some s' →
  p0 s' = (if isPageInRange s (page0Target k)
           then Some (page0Target k) else None)
  ∧ p1 s' = (if isPageInRange s (page1Target k)
             then Some (page1Target k) else None)
  ∧ generated s'
    = generated s
      ++ (if isPageInRange s (page0Target k)
          then [(page0, page0Target k)] else [])
      ++ (if isPageInRange s (page1Target k)
          then [(page1, page1Target k)] else []).
Proof.
  intros Hcur Hpi Hk Hupd.
  set (s0 := invalidatePages s) in *.
  assert (untouched s s0) as Hu by done.
  assert (p0 s0 = None ∧ p1 s0 = None ∧ generated s0 = generated s
          ∧ count s0 = count s ∧ rowsPerPage s0 = rowsPerPage s
          ∧ pageCount s0 = pageCount s) as (Z0 & Z1 & Zg & Zc & Zr & Zp)
    by done.
  clearbody s0.
  rewrite <- (positionToPageInfo_untouched s s0) in Hpi by done.
  rewrite <- (leapFrog_untouched s s0) in Hk by done.
  destruct (update_unfold b fuel y s0 s' pi k Hpi Hk Hupd)
    as (s1 & u1 & s2 & u2 & E0 & E1 & Hg & Hp0 & Hp1).
  pose proof (updateSlot_spec _ _ _ _ _ _ _ E0) as (Hy0 & Hn0 & Ho0).
  pose proof (updateSlot_spec _ _ _ _ _ _ _ E1) as (Hy1 & Hn1 & Ho1).
  cbn [slotPage] in *.
  rewrite <- !(isPageInRange_untouched s s0) by done.
  assert (p0 s1 = (if isPageInRange s0 (page0Target k)
                   then Some (page0Target k) else None)
          ∧ generated s1
            = generated s ++ (if isPageInRange s0 (page0Target k)
                              then [(page0, page0Target k)] else [])
          ∧ pageCount s1 = pageCount s0) as (P0 & G0 & C0).
  { destruct (isPageInRange s0 (page0Target k)) eqn:Hin.
    - destruct Hy0 as (Hgen & Hset & _ & Hc & Hr & Hpc);
        [by rewrite Z0|].
      rewrite Hgen, Zg. split; [done|]. split; [done|].
      destruct Hpc as [->| ->]; [done|]. congruence.
    - destruct Hn0 as [-> _]; [intros [_ ?]; congruence|].
      rewrite Z0, Zg, app_nil_r. done. }
  assert (isPageInRange s1 (page1Target k)
          = isPageInRange s0 (page1Target k)) as Hsame.
  { unfold isPageInRange. by rewrite C0. }
  rewrite Hp0, Ho1, P0, Hp1, Hg. split; [done|].
  destruct (isPageInRange s0 (page1Target k)) eqn:Hin.
  - destruct Hy1 as (Hgen & Hset & _); [by rewrite Ho0, Z1, Hsame|].
    rewrite Hgen, Hset, G0, <- app_assoc. done.
  - destruct Hn1 as [-> _]; [intros [_ ?]; congruence|].
    rewrite Ho0, Z1, G0, app_nil_r. done.
Qed.

(** [refresh] clears both slots with [invalidatePages] and then runs
    [update].  On a list with up-to-date [pageCount >= 1], positive
    [rowsPerPage] and positive page heights this returns once the fuel
    exceeds the logical position, row height known or not, and the
    outcome depends on the scroll position alone: each slot ends up
    holding its target when [isPageInRange] accepts it and stays empty
    otherwise, and exactly the accepted targets are generated, [page0]
    first. *)
Theorem update_after_invalidatePages b fuel y s :
  (∀ q, 0 < getPageHeight s q) →
  (Z.to_nat (calcPos s y) < fuel)%nat →
  0 < rowsPerPage s →
  pageCount s = ceilDiv (count s) (rowsPerPage s) →
  1 ≤ pageCount s →
  ∃ pi k s',
    positionToPageInfo s fuel y = Some pi
    ∧ leapFrog s pi = Some k
    ∧ update b fuel y (invalidatePages s) = Some s'
    ∧ p0 s' = (if isPageInRange s (page0Target k)
               then Some (page0Target k) else None)
    ∧ p1 s' = (if isPageInRange s (page1Target k)
               then Some (page1Target k) else None)
    ∧ generated s'
      = generated s
        ++ (if isPageInRange s (page0Target k)
            then [(page0, page0Target k)] else [])
        ++ (if isPageInRange s (page1Target k)
            then [(page1, page1Target k)] else []).
Proof.
  intros Hpos Hfuel Hr Hpc H1.
  assert (untouched s (invalidatePages s)) as Hu by done.
  destruct (update_returns b fuel y (invalidatePages s))
    as (pi & k & s' & Hpi & Hk & Hupd); try done.
  rewrite (positionToPageInfo_untouched s) in Hpi by done.
  rewrite (leapFrog_untouched s) in Hk by done.
  exists pi, k, s'. do 3 (split; [done|]).
  by apply (invalidatePages_then_update b fuel y s s' pi k).
Qed.

Lemma update_after_invalidatePages_witness :
  (∃ s', update sampleBounds (Z.to_nat 9701) 9700 (invalidatePages sampleList)
         = Some s'
     ∧ p0 s' = None ∧ p1 s' = Some 9
     ∧ generated s' = [(page1, 9)])
  ∧ (∃ s', update freshBounds 1 0 (invalidatePages freshList) = Some s'
       ∧ p0 s' = Some 0 ∧ p1 s' = Some 1).
Proof.
  split.
  - destruct (update_after_invalidatePages sampleBounds (Z.to_nat 9701) 9700
                sampleList) as (pi & k & s' & Hpi & Hk & Hupd & H0 & H1 & Hg);
      [apply sampleList_heights|vm_compute; lia|reflexivity|reflexivity
      |discriminate|].
    vm_compute in Hpi. injection Hpi as <-.
    vm_compute in Hk. injection Hk as <-.
    exists s'. split; [exact Hupd|].
    split; [exact H0|]. split; [exact H1|exact Hg].
  - destruct (update_after_invalidatePages freshBounds 1 0 freshList)
      as (pi & k & s' & Hpi & Hk & Hupd & H0 & H1 & _);
      [apply freshList_heights|vm_compute; lia|reflexivity|reflexivity
      |discriminate|].
    vm_compute in Hpi. injection Hpi as <-.
    vm_compute in Hk. injection Hk as <-.
    exists s'. split; [exact Hupd|]. split; [exact H0|exact H1].
Defined.

End PagingProofs.

(** ** Properties of the swipe controller *)

Module SwipeProofs.
Import Swipe.

(** *** The dragged fraction against the threshold *)



(** Effects of the two ways a first swipe ends. *)
Lemma swipe_effect e speed s :
  let s' := swipe e speed s in
  swipeComplete s' = true
  ∧ translateX (panel s') = Some 0
  ∧ transition (panel s') = secs speed
  ∧ emitted s' = emitted s
  ∧ persistentItemVisisble s' = persistentItemVisisble s.
Proof. done. Qed.

Lemma backOutSwipe_effect dm e s :
  let s' := backOutSwipe dm e s in
  swipeComplete s' = swipeComplete s
  ∧ translateX (panel s')
    = (if isOne (swipeDirection s) then negNum (panelWidth dm)
       else panelWidth dm)
  ∧ transition (panel s') = secs (1 # 10)
  ∧ emitted s' = emitted s
  ∧ persistentItemVisisble s' = persistentItemVisisble s.
Proof. done. Qed.





(** *** A persisting panel: slide away or bounce *)

Lemma slideAwayItem_effect dm s :
  let s' := slideAwayItem dm s in
  persistentItemVisisble s' = false
  ∧ persistSwipeableItem s' = false
  ∧ translateX (panel s')
    = (if decide (persistentItemOrigin s = Some sideRight)
       then panelWidth dm else negNum (panelWidth dm))
  ∧ showing (panel s') = showing (panel s).
Proof. done. Qed.

Lemma bounceItem_effect dm e s :
  let s' := bounceItem dm e s in
  persistentItemVisisble s' = persistentItemVisisble s
  ∧ persistSwipeableItem s' = persistSwipeableItem s
  ∧ showing (panel s') = showing (panel s)
  ∧ (panelX dm = Some 0 → s' = s)
  ∧ (panelX dm ≠ Some 0 → translateX (panel s') = Some 0).
Proof.
  unfold bounceItem. destruct (panelX dm) as [[|x|x]|]; done.
Qed.

Lemma flick_persistent dm e s :
  enableSwipe s = true → persistentItemVisisble s = true →
  Qltb (Qabs (xVelocity e)) (Qabs (yVelocity e)) = false →
  flick dm e s = flickPersistentItem dm e (setFlicked true s).
Proof.
  intros He Hp Hv. unfold flick. rewrite He, Hv. cbv zeta.
  change (persistentItemVisisble (setFlicked true s))
    with (persistentItemVisisble s).
  by rewrite Hp.
Qed.

(** C4.  A flick with dominant horizontal velocity that arrives while a
    persistent panel is visible is decided by its direction against the
    side the panel came from: a flick toward the origin side slides the
    panel away (closed, persistent flag cleared), a flick toward the
    other side bounces it back to its open position (the flag stays set),
    and a flick with no horizontal velocity only sets the flicked flag. *)
Theorem C4_flick_persistent_item dm e s o :
  enableSwipe s = true → persistentItemVisisble s = true →
  persistentItemOrigin s = Some o →
  Qltb (Qabs (xVelocity e)) (Qabs (yVelocity e)) = false →
  let s' := flick dm e s in
  (flickSide e = Some o →
     s' = slideAwayItem dm (setFlicked true s)
     ∧ persistentItemVisisble s' = false
     ∧ translateX (panel s')
       = (match o with sideRight => panelWidth dm
                     | sideLeft => negNum (panelWidth dm) end))
  ∧ (flickSide e = Some (opposite o) →
     s' = bounceItem dm e (setFlicked true s)
     ∧ persistentItemVisisble s' = true
     ∧ (panelX dm ≠ Some 0 → translateX (panel s') = Some 0)
     ∧ (panelX dm = Some 0 → translateX (panel s') = translateX (panel s)))
  ∧ (flickSide e = None → s' = setFlicked true s).
Proof.
  intros He Hp Ho Hv s'. subst s'.
  rewrite (flick_persistent dm e s He Hp Hv).
  unfold flickSide, flickPersistentItem. cbn [persistentItemOrigin setFlicked].
  rewrite Ho.
  destruct (Qltb 0 (xVelocity e)); [|destruct (Qltb (xVelocity e) 0)];
    destruct o; cbn [opposite];
    (split_and!; intros [=]);
    repeat (case_decide; try congruence);
    try done;
    try (split; [reflexivity|]; split; [done|];
         cbn; rewrite Ho; by case_decide).
  all: split; [reflexivity|];
    destruct (bounceItem_effect dm e (setFlicked true s))
      as (Hv' & _ & _ & Hsame & Hmove);
    split; [by rewrite Hv'|]; split; [done|];
    intros H0; by rewrite (Hsame H0).
Qed.

Lemma C4_witness :
  persistentItemVisisble
    (flick (sampleDom 0) (gesture 5 1) (persistentState sideRight)) = false
  ∧ persistentItemVisisble
      (flick (sampleDom 0) (gesture 5 1) (persistentState sideLeft)) = true.
Proof.
  destruct (C4_flick_persistent_item (sampleDom 0) (gesture 5 1)
              (persistentState sideRight) sideRight) as (Hto & _ & _);
    [reflexivity|reflexivity|reflexivity|reflexivity|].
  destruct (C4_flick_persistent_item (sampleDom 0) (gesture 5 1)
              (persistentState sideLeft) sideLeft) as (_ & Haway & _);
    [reflexivity|reflexivity|reflexivity|reflexivity|].
  split.
  - destruct Hto as (_ & Hv & _); [reflexivity|exact Hv].
  - destruct Haway as (_ & Hv & _); [reflexivity|exact Hv].
Defined.

(** The panel came from the right.  A flick to the right, toward the
    origin side, does not bounce it back: it is slid off to +100px and the
    persistent flag is cleared.  A flick to the left, away from the origin
    side, does not slide it away: the panel stays open at 0px. *)
Lemma C4_counterexample :
  persistentItemOrigin (persistentState sideRight) = Some sideRight
  ∧ flickSide (gesture 5 1) = Some sideRight
  ∧ persistentItemVisisble
      (flick (sampleDom 0) (gesture 5 1) (persistentState sideRight)) = false
  ∧ translateX (panel (flick (sampleDom 0) (gesture 5 1)
                         (persistentState sideRight))) = Some 100
  ∧ flickSide (gesture (-5) (-1)) = Some sideLeft
  ∧ persistentItemVisisble
      (flick (sampleDom 0) (gesture (-5) (-1)) (persistentState sideRight))
    = true
  ∧ translateX (panel (flick (sampleDom 0) (gesture (-5) (-1))
                         (persistentState sideRight))) = Some 0.
Proof. split_and!; reflexivity. Qed.





(** *** Dismissing a persistent panel *)

Lemma completeSwipe_dismissed e s :
  persistSwipeableItem s = false →
  let s' := (completeSwipe e s).2 in
  persistSwipeableItem s' = false
  ∧ persistentItemVisisble s' = persistentItemVisisble s
  ∧ showing (panel s') = false
  ∧ completeSwipeTimeout s' = None.
Proof.
  intros Hp. unfold completeSwipe.
  destruct (completeSwipeTimeout s) as [id|] eqn:Et; cbn;
    rewrite Hp; cbn; destruct (swipeComplete s); cbn;
    rewrite ?Et; done.
Qed.

Lemma dragstart_dismissed dm e s : dismissed s → dismissed (dragstart dm e s).
Proof.
  intros [Hp Hv]. unfold dragstart.
  destruct (negb (hasSwipeableComponents s) || vertical e); [done|].
  cbv zeta.
  set (s1 := setSwipeDirection (xDirection e) s).
  assert (persistSwipeableItem s1 = false) as Hp1 by done.
  assert (persistentItemVisisble s1 = false) as Hv1 by done.
  destruct (completeSwipe_dismissed e s1 Hp1) as (Hp2 & Hv2 & _).
  rewrite Hv1 in Hv2. clearbody s1.
  assert (∀ e2 s2, persistSwipeableItem s2 = false →
            persistentItemVisisble s2 = false →
            dismissed
              (let s := setFlicked false s2 in
               let s := setSwipeComplete false s in
               let s := if swipeIndexChanged (index e2) s
                        then setSwipeIndex (index e2) (clearSwipeables s)
                        else s in
               if negb (persistentItemVisisble s)
               then startSwipe dm e2 s else s)) as Hrest.
  { intros e2 s2 H2 H2'. cbv zeta.
    destruct (swipeIndexChanged _ _); cbn; rewrite ?H2'; cbn;
      unfold dismissed, startSwipe, positionSwipeableContainer; cbn;
      repeat case_match; done. }
  destruct (completeSwipeTimeout s1).
  - destruct (completeSwipe e s1) as [e2 s2]. by apply Hrest.
  - by apply Hrest.
Qed.

Lemma step_dismissed s i :
  reenables i = false → dismissed s → dismissed (step s i).
Proof.
  intros Hi Hd. destruct i as [dm e|dm e|dm e|dm e|e|id|v]; cbn [step].
  - by apply dragstart_dismissed.
  - destruct Hd as [Hp Hv]. unfold drag.
    destruct (negb (enableSwipe s)); [done|]. rewrite Hv. done.
  - destruct Hd as [Hp Hv]. unfold flick.
    destruct (negb (enableSwipe s)); [done|].
    destruct (Qltb _ _); [done|]. cbn. rewrite Hv. done.
  - destruct Hd as [Hp Hv]. unfold dragfinish.
    destruct (negb (enableSwipe s)); [done|].
    destruct (wasFlicked s); [done|]. rewrite Hv.
    destruct (exceeds _ _); done.
  - destruct Hd as [Hp Hv]. unfold transitionComplete.
    destruct (negb _); done.
  - destruct Hd as [Hp Hv]. unfold fireTimer.
    destruct (list_find _ _) as [[? [? e]]|]; [|done].
    match goal with |- dismissed (completeSwipe e ?x).2 =>
      destruct (completeSwipe_dismissed e x Hp) as (H1 & H2 & _) end.
    split; [done|]. by rewrite H2.
  - cbn in Hi. subst v. by destruct Hd.
Qed.

Lemma run_dismissed ins s :
  forallb (fun i => negb (reenables i)) ins = true →
  dismissed s → dismissed (run s ins).
Proof.
  revert s. induction ins as [|i ins IH]; intros s Hall Hd; [done|].
  cbn in Hall. apply andb_true_iff in Hall as [Hi Hall].
  cbn. apply IH; [done|]. apply step_dismissed; [|done].
  by destruct (reenables i).
Qed.

(** C10.  [slideAwayItem] moves the panel off-screen and [clearSwipeables]
    hides it; both clear the persistent-visible flag and set the published
    [persistSwipeableItem] option to false.  From then on, whatever events
    arrive, as long as the application does not switch the option back on
    the option stays false and no panel persists: every [completeSwipe]
    hides the panel and leaves the persistent-visible flag clear. *)
Theorem C10_dismissal_disables_persistence dm s ins e :
  forallb (fun i => negb (reenables i)) ins = true →
  (persistentItemVisisble (slideAwayItem dm s) = false
   ∧ persistSwipeableItem (slideAwayItem dm s) = false
   ∧ translateX (panel (slideAwayItem dm s))
     = (if decide (persistentItemOrigin s = Some sideRight)
        then panelWidth dm else negNum (panelWidth dm)))
  ∧ (showing (panel (clearSwipeables s)) = false
     ∧ persistentItemVisisble (clearSwipeables s) = false
     ∧ persistSwipeableItem (clearSwipeables s) = false)
  ∧ ∀ s0, s0 = slideAwayItem dm s ∨ s0 = clearSwipeables s →
      let s1 := run s0 ins in
      persistSwipeableItem s1 = false
      ∧ persistentItemVisisble s1 = false
      ∧ persistentItemVisisble (completeSwipe e s1).2 = false
      ∧ showing (panel (completeSwipe e s1).2) = false.
Proof.
  intros Hall. split; [done|]. split; [done|].
  intros s0 Hs0 s1.
  assert (dismissed s0) as Hd0 by (destruct Hs0 as [-> | ->]; done).
  destruct (run_dismissed ins s0 Hall Hd0) as [Hp Hv]. fold s1 in Hp, Hv.
  destruct (completeSwipe_dismissed e s1 Hp) as (_ & Hv' & Hs & _).
  split; [done|]. split; [done|]. split; [by rewrite Hv'|done].
Qed.

Lemma C10_witness :
  let ins := [DragStart (sampleDom 100) (gesture (-5) 0);
              DragFinish (sampleDom 70) (gesture (-30) 0);
              TransitionEnd panelTransitionEnd;
              TimerFires 1%positive] in
  let s1 := run (slideAwayItem (sampleDom 0) (persistentState sideRight)) ins in
  persistSwipeableItem s1 = false
  ∧ persistentItemVisisble s1 = false
  ∧ showing (panel s1) = false.
Proof.
  intros ins s1.
  destruct (C10_dismissal_disables_persistence (sampleDom 0)
              (persistentState sideRight) ins panelTransitionEnd)
    as (_ & _ & Hrun); [reflexivity|].
  destruct (Hrun (slideAwayItem (sampleDom 0) (persistentState sideRight)))
    as (Hp & Hv & _); [by left|].
  split; [exact Hp|]. split; [exact Hv|]. reflexivity.
Defined.

(** *** Signals *)

Lemma emit_neverSwiped sg s :
  isOnSwipe sg = false → neverSwiped s → neverSwiped (emit sg s).
Proof.
  unfold neverSwiped. cbn. intros Hsg Hs.
  rewrite forallb_app, Hs. cbn. by rewrite Hsg.
Qed.

Lemma completeSwipe_neverSwiped e s :
  neverSwiped s → neverSwiped (completeSwipe e s).2.
Proof.
  intros Hs. unfold completeSwipe.
  destruct (completeSwipeTimeout s); cbn;
    destruct (persistSwipeableItem s); cbn; try done;
    destruct (swipeComplete s); try done;
    by apply emit_neverSwiped.
Qed.

Lemma dragstart_neverSwiped dm e s :
  neverSwiped s → neverSwiped (dragstart dm e s).
Proof.
  intros Hs. unfold dragstart.
  destruct (negb (hasSwipeableComponents s) || vertical e); [done|].
  cbv zeta.
  set (s1 := setSwipeDirection (xDirection e) s).
  assert (neverSwiped s1) as Hs1 by done.
  pose proof (completeSwipe_neverSwiped e s1 Hs1) as Hs2. clearbody s1.
  assert (∀ e2 s2, neverSwiped s2 →
            neverSwiped
              (let s := setFlicked false s2 in
               let s := setSwipeComplete false s in
               let s := if swipeIndexChanged (index e2) s
                        then setSwipeIndex (index e2) (clearSwipeables s)
                        else s in
               if negb (persistentItemVisisble s)
               then startSwipe dm e2 s else s)) as Hrest.
  { intros e2 s2 H2. cbv zeta.
    destruct (swipeIndexChanged _ _);
      (destruct (negb _); [|done]);
      apply emit_neverSwiped; try done;
      unfold positionSwipeableContainer; cbn; by case_match. }
  destruct (completeSwipeTimeout s1).
  - destruct (completeSwipe e s1) as [e2 s2]. by apply Hrest.
  - by apply Hrest.
Qed.

Lemma step_neverSwiped s i : neverSwiped s → neverSwiped (step s i).
Proof.
  intros Hs. destruct i as [dm e|dm e|dm e|dm e|e|id|v]; cbn [step].
  - by apply dragstart_neverSwiped.
  - unfold drag. repeat case_match; done.
  - unfold flick, flickPersistentItem, bounceItem. cbn.
    repeat case_match; done.
  - unfold dragfinish, dragFinishPersistentItem, bounceItem.
    repeat case_match; done.
  - unfold transitionComplete. case_match; done.
  - unfold fireTimer. destruct (list_find _ _) as [[? [? e]]|]; [|done].
    by apply completeSwipe_neverSwiped.
  - done.
Qed.

(** No handler fires [onSwipe]: whatever the inputs, none is emitted. *)
Lemma run_neverSwiped ins s : neverSwiped s → neverSwiped (run s ins).
Proof.
  revert s. induction ins as [|i ins IH]; intros s Hs; [done|].
  cbn. apply IH. by apply step_neverSwiped.
Qed.

(** *** The completion timer *)

Lemma transitionComplete_arms e s :
  originatorName e = "swipeableComponents"%string →
  timers (transitionComplete e s) = timers s ++ [(nextTimer s, e)]
  ∧ completeSwipeTimeout (transitionComplete e s) = Some (nextTimer s)
  ∧ liveTimers (transitionComplete e s) = S (liveTimers s).
Proof.
  intros Hn. unfold transitionComplete, liveTimers. rewrite Hn. cbn.
  rewrite length_app. cbn. split_and!; [done|done|lia].
Qed.

Lemma completeSwipe_cancels e s id :
  completeSwipeTimeout s = Some id →
  completeSwipeTimeout (completeSwipe e s).2 = None
  ∧ timers (completeSwipe e s).2 = filter (fun t => t.1 ≠ id) (timers s).
Proof.
  intros Hid. unfold completeSwipe. rewrite Hid. cbn.
  destruct (persistSwipeableItem s); cbn; [done|].
  destruct (swipeComplete s); done.
Qed.

(** C1.  Two transition-end events of the panel in a row: the second
    [transitionComplete] arms timer 2 and overwrites the handle of timer
    1 without clearing it, so two completion timers are pending.  The
    next drag-start force-completes through the stored handle only:
    timer 2 is cleared, timer 1 is still pending and fires
    [completeSwipe] once more. *)
Theorem C1_second_transition_end_leaks_timer :
  let s1 := step idleState (TransitionEnd panelTransitionEnd) in
  let s2 := step s1 (TransitionEnd panelTransitionEnd) in
  let s3 := step s2 (DragStart (sampleDom 100) (gesture (-5) 0)) in
  (liveTimers s1 = 1%nat ∧ completeSwipeTimeout s1 = Some 1%positive)
  ∧ (liveTimers s2 = 2%nat ∧ completeSwipeTimeout s2 = Some 2%positive
     ∧ (timers s2).*1 = [1%positive; 2%positive])
  ∧ (completeSwipeTimeout s3 = None ∧ (timers s3).*1 = [1%positive]).
Proof. vm_compute. split_and!; reflexivity. Qed.

(** *** Signals, in general *)

Lemma emit_lifecycle sg s :
  isLifecycle sg = true →
  forallb isLifecycle (emitted s) = true →
  forallb isLifecycle (emitted (emit sg s)) = true.
Proof. cbn. intros Hsg Hs. rewrite forallb_app, Hs. cbn. by rewrite Hsg. Qed.

Lemma completeSwipe_lifecycle e s :
  forallb isLifecycle (emitted s) = true →
  forallb isLifecycle (emitted (completeSwipe e s).2) = true.
Proof.
  intros Hs. unfold completeSwipe.
  destruct (completeSwipeTimeout s); cbn;
    destruct (persistSwipeableItem s); cbn; try done;
    destruct (swipeComplete s); try done;
    by apply emit_lifecycle.
Qed.

Lemma dragstart_lifecycle dm e s :
  forallb isLifecycle (emitted s) = true →
  forallb isLifecycle (emitted (dragstart dm e s)) = true.
Proof.
  intros Hs. unfold dragstart.
  destruct (negb (hasSwipeableComponents s) || vertical e); [done|].
  cbv zeta.
  set (s1 := setSwipeDirection (xDirection e) s).
  assert (forallb isLifecycle (emitted s1) = true) as Hs1 by done.
  pose proof (completeSwipe_lifecycle e s1 Hs1) as Hs2. clearbody s1.
  assert (∀ e2 s2, forallb isLifecycle (emitted s2) = true →
            forallb isLifecycle (emitted
              (let s := setFlicked false s2 in
               let s := setSwipeComplete false s in
               let s := if swipeIndexChanged (index e2) s
                        then setSwipeIndex (index e2) (clearSwipeables s)
                        else s in
               if negb (persistentItemVisisble s)
               then startSwipe dm e2 s else s)) = true) as Hrest.
  { intros e2 s2 H2. cbv zeta.
    destruct (swipeIndexChanged _ _);
      (destruct (negb _); [|done]);
      apply emit_lifecycle; try done;
      unfold positionSwipeableContainer; cbn; by case_match. }
  destruct (completeSwipeTimeout s1).
  - destruct (completeSwipe e s1) as [e2 s2]. by apply Hrest.
  - by apply Hrest.
Qed.

Lemma step_lifecycle s i :
  forallb isLifecycle (emitted s) = true →
  forallb isLifecycle (emitted (step s i)) = true.
Proof.
  intros Hs. destruct i as [dm e|dm e|dm e|dm e|e|id|v]; cbn [step].
  - by apply dragstart_lifecycle.
  - unfold drag. repeat case_match; done.
  - unfold flick, flickPersistentItem, bounceItem. cbn.
    repeat case_match; done.
  - unfold dragfinish, dragFinishPersistentItem, bounceItem.
    repeat case_match; done.
  - unfold transitionComplete. case_match; done.
  - unfold fireTimer. destruct (list_find _ _) as [[? [? e]]|]; [|done].
    by apply completeSwipe_lifecycle.
  - done.
Qed.

(** Whatever reaches the list, the only signals it emits are
    [onSetupSwipeItem] and [onSwipeComplete]: [onSetupItem],
    [onSwipeDrag] and [onSwipe] are declared and never fired. *)
Theorem only_lifecycle_signals ins s :
  forallb isLifecycle (emitted s) = true →
  forallb isLifecycle (emitted (run s ins)) = true.
Proof.
  revert s. induction ins as [|i ins IH]; intros s Hs; [done|].
  cbn. apply IH. by apply step_lifecycle.
Qed.

Lemma only_lifecycle_signals_witness :
  forallb isLifecycle
    (emitted (run idleState
                [DragStart (sampleDom 100) (gesture (-5) 0);
                 Drag (sampleDom 100) (gesture (-30) 0);
                 DragFinish (sampleDom 70) (gesture (-30) 0);
                 TransitionEnd panelTransitionEnd;
                 TimerFires 1%positive])) = true
  ∧ length (emitted (run idleState
                [DragStart (sampleDom 100) (gesture (-5) 0);
                 Drag (sampleDom 100) (gesture (-30) 0);
                 DragFinish (sampleDom 70) (gesture (-30) 0);
                 TransitionEnd panelTransitionEnd;
                 TimerFires 1%positive])) = 2%nat.
Proof.
  split; [|reflexivity].
  apply only_lifecycle_signals. reflexivity.
Defined.

(** *** A flick ends the gesture *)

Lemma completeSwipe_frame e s :
  flicked (completeSwipe e s).2 = flicked s
  ∧ enableSwipe (completeSwipe e s).2 = enableSwipe s.
Proof.
  unfold completeSwipe.
  destruct (completeSwipeTimeout s); cbn;
    destruct (persistSwipeableItem s); cbn; try done;
    destruct (swipeComplete s); done.
Qed.

Lemma step_keeps_flicked s i :
  isDragStart i = false →
  enableSwipe s = true ∧ flicked s = true →
  enableSwipe (step s i) = true ∧ flicked (step s i) = true.
Proof.
  intros Hi [He Hf].
  destruct i as [dm e|dm e|dm e|dm e|e|id|v]; cbn [step]; [done|..].
  - unfold drag. rewrite He. cbn. by destruct (persistentItemVisisble s).
  - unfold flick, flickPersistentItem, bounceItem. rewrite He. cbn.
    repeat case_match; done.
  - unfold dragfinish, wasFlicked. by rewrite He, Hf.
  - unfold transitionComplete. by case_match.
  - unfold fireTimer. destruct (list_find _ _) as [[? [? e]]|]; [|done].
    match goal with |- context [completeSwipe e ?x] =>
      destruct (completeSwipe_frame e x) as [-> ->] end. done.
  - done.
Qed.

Lemma flick_sets_flicked dm e s :
  enableSwipe s = true →
  Qltb (Qabs (xVelocity e)) (Qabs (yVelocity e)) = false →
  enableSwipe (flick dm e s) = true ∧ flicked (flick dm e s) = true.
Proof.
  intros He Hv. unfold flick, flickPersistentItem, bounceItem.
  rewrite He, Hv. cbn. repeat case_match; done.
Qed.

(** Once a flick with dominant horizontal velocity was handled, every
    [dragfinish] is ignored until the next [dragstart]: whatever drags,
    flicks, transition-ends or timers come in between, the flicked flag
    stays set and [dragfinish] returns the state unchanged. *)
Theorem flick_suppresses_dragfinish dm e s ins dm2 e2 :
  enableSwipe s = true →
  Qltb (Qabs (xVelocity e)) (Qabs (yVelocity e)) = false →
  forallb (fun i => negb (isDragStart i)) ins = true →
  flicked (run (flick dm e s) ins) = true
  ∧ dragfinish dm2 e2 (run (flick dm e s) ins) = run (flick dm e s) ins.
Proof.
  intros He Hv Hins.
  assert (enableSwipe (run (flick dm e s) ins) = true
          ∧ flicked (run (flick dm e s) ins) = true) as [He' Hf'].
  { pose proof (flick_sets_flicked dm e s He Hv) as H0.
    revert H0 Hins. generalize (flick dm e s). clear.
    induction ins as [|i ins IH]; intros s0 H0 Hins; [done|].
    cbn in Hins. apply andb_true_iff in Hins as [Hi Hins].
    cbn. apply IH; [|done]. apply step_keeps_flicked; [|done].
    by destruct (isDragStart i). }
  split; [done|]. unfold dragfinish, wasFlicked. by rewrite He', Hf'.
Qed.

Lemma flick_suppresses_dragfinish_witness :
  dragfinish (sampleDom 0) (gesture (-60) 0)
    (run (flick (sampleDom 80) (gesture (-20) (-1)) (draggingState 80))
       [Drag (sampleDom 0) (gesture (-5) 0)])
  = run (flick (sampleDom 80) (gesture (-20) (-1)) (draggingState 80))
      [Drag (sampleDom 0) (gesture (-5) 0)].
Proof.
  apply (flick_suppresses_dragfinish (sampleDom 80) (gesture (-20) (-1))
           (draggingState 80) [Drag (sampleDom 0) (gesture (-5) 0)]);
    reflexivity.
Defined.

(** *** Timers, properly spaced *)

Lemma completeSwipe_timers e s :
  timers (completeSwipe e s).2
  = match completeSwipeTimeout s with
    | Some id => filter (fun t => t.1 ≠ id) (timers s)
    | None => timers s
    end
  ∧ completeSwipeTimeout (completeSwipe e s).2 = None
  ∧ nextTimer (completeSwipe e s).2 = nextTimer s.
Proof.
  unfold completeSwipe.
  destruct (completeSwipeTimeout s) eqn:Et; cbn;
    destruct (persistSwipeableItem s); cbn; try done;
    destruct (swipeComplete s); cbn; done.
Qed.

(** [dragstart] touches the timers only through [completeSwipe]. *)
Lemma dragstart_timers dm e s :
  (timers (dragstart dm e s) = timers s
   ∧ completeSwipeTimeout (dragstart dm e s) = completeSwipeTimeout s
   ∧ nextTimer (dragstart dm e s) = nextTimer s)
  ∨ (∃ id, completeSwipeTimeout s = Some id
     ∧ timers (dragstart dm e s) = filter (fun t => t.1 ≠ id) (timers s)
     ∧ completeSwipeTimeout (dragstart dm e s) = None
     ∧ nextTimer (dragstart dm e s) = nextTimer s).
Proof.
  unfold dragstart.
  destruct (negb (hasSwipeableComponents s) || vertical e); [by left|].
  cbv zeta.
  set (s1 := setSwipeDirection (xDirection e) s).
  assert (timers s1 = timers s ∧ completeSwipeTimeout s1 = completeSwipeTimeout s
          ∧ nextTimer s1 = nextTimer s) as (T1 & H1 & N1) by done.
  pose proof (completeSwipe_timers e s1) as (T2 & H2 & N2).
  clearbody s1.
  assert (∀ e2 s2,
            let r := (let s := setFlicked false s2 in
                      let s := setSwipeComplete false s in
                      let s := if swipeIndexChanged (index e2) s
                               then setSwipeIndex (index e2) (clearSwipeables s)
                               else s in
                      if negb (persistentItemVisisble s)
                      then startSwipe dm e2 s else s) in
            timers r = timers s2
            ∧ completeSwipeTimeout r = completeSwipeTimeout s2
            ∧ nextTimer r = nextTimer s2) as Hrest.
  { intros e2 s2. cbv zeta.
    destruct (swipeIndexChanged _ _);
      (destruct (negb _); [|done]);
      unfold startSwipe, positionSwipeableContainer; cbn;
      repeat case_match; done. }
  cbv zeta in Hrest.
  destruct (completeSwipeTimeout s1) as [id|] eqn:Eh.
  - right. exists id. split; [congruence|].
    destruct (completeSwipe e s1) as [e2 s2]. cbn [snd] in *.
    destruct (Hrest e2 s2) as (-> & -> & ->).
    split_and!; congruence.
  - left. destruct (Hrest e s1) as (-> & -> & ->).
    split_and!; congruence.
Qed.

Lemma fmap_fst_filter_ne (l : list (positive * Event)) id :
  (filter (fun t => t.1 ≠ id) l).*1 = filter (fun x => x ≠ id) l.*1.
Proof.
  induction l as [|[a e] l IH]; [done|].
  rewrite filter_cons. cbn [fst fmap list_fmap].
  rewrite (filter_cons (λ x, x ≠ id) a). cbn.
  destruct (decide (a ≠ id)); cbn; by rewrite <- IH.
Qed.

Lemma fireTimer_timers id s :
  (fireTimer id s = s ∧ id ∉ (timers s).*1)
  ∨ (id ∈ (timers s).*1
     ∧ (timers (fireTimer id s)).*1
       = match completeSwipeTimeout s with
         | Some h =>
             filter (fun x => x ≠ h) (filter (fun x => x ≠ id) (timers s).*1)
         | None => filter (fun x => x ≠ id) (timers s).*1
         end
     ∧ completeSwipeTimeout (fireTimer id s) = None
     ∧ nextTimer (fireTimer id s) = nextTimer s).
Proof.
  unfold fireTimer.
  destruct (list_find _ _) as [[n [id' e]]|] eqn:Ef.
  - right. apply list_find_Some in Ef as (Hn & Hid & _). cbn in Hid. subst id'.
    split. { apply list_elem_of_fmap. exists (id, e). split; [done|].
             by eapply list_elem_of_lookup_2. }
    match goal with |- context [completeSwipe e ?x] =>
      destruct (completeSwipe_timers e x) as (-> & -> & ->) end.
    cbn. split; [|done].
    destruct (completeSwipeTimeout s) as [h|];
      by rewrite !fmap_fst_filter_ne.
  - left. split; [done|]. apply list_find_None in Ef.
    intros Hin. apply list_elem_of_fmap in Hin as ([a e] & -> & Hin).
    rewrite Forall_forall in Ef. by apply (Ef _ Hin).
Qed.

(** Dragging, flicking, finishing a drag and setting the option leave
    the timers alone. *)
Lemma step_timers_frame s i :
  match i with
  | DragStart _ _ | TransitionEnd _ | TimerFires _ => True
  | _ => timers (step s i) = timers s
         ∧ completeSwipeTimeout (step s i) = completeSwipeTimeout s
         ∧ nextTimer (step s i) = nextTimer s
  end.
Proof.
  destruct i as [dm e|dm e|dm e|dm e|e|id|v]; try exact I; cbn [step].
  - unfold drag. repeat case_match; done.
  - unfold flick, flickPersistentItem, bounceItem.
    repeat (case_match; cbn); done.
  - unfold dragfinish, dragFinishPersistentItem, bounceItem.
    repeat (case_match; cbn); done.
  - done.
Qed.

Lemma step_tidy s i : tidyTimers s → spaced s i → tidyTimers (step s i).
Proof.
  unfold tidyTimers. intros Ht Hsp.
  pose proof (step_timers_frame s i) as Hfr.
  destruct i as [dm e|dm e|dm e|dm e|e|id|v];
    try (destruct Hfr as (-> & -> & _); exact Ht); cbn [step].
  - destruct (dragstart_timers dm e s) as [(-> & -> & _)|(id & Hid & -> & -> & _)];
      [done|].
    rewrite Hid in Ht. rewrite fmap_fst_filter_ne, Ht.
    rewrite filter_cons, decide_False by (intros H; by apply H). done.
  - unfold transitionComplete.
    destruct (String.eqb_spec (originatorName e) "swipeableComponents")
      as [Hn|Hn]; [|done].
    cbn in Hsp. rewrite (Hsp Hn) in Ht. cbn.
    rewrite fmap_app, Ht. done.
  - destruct (fireTimer_timers id s) as [[-> _]|(Hin & -> & -> & _)]; [done|].
    rewrite Ht in *. destruct (completeSwipeTimeout s) as [h|];
      [|by apply elem_of_nil in Hin].
    apply list_elem_of_singleton in Hin as ->.
    rewrite filter_cons, decide_False by (intros H; by apply H). done.
Qed.

(** Starting with the pending timers in step with the stored handle, and
    as long as no transition-end of the panel arrives while a handle is
    stored, they stay in step: at most one completion timer is pending,
    and it is the one [completeSwipe] will cancel. *)
Theorem spaced_transitions_keep_one_timer ins s :
  tidyTimers s → wellSpaced s ins →
  tidyTimers (run s ins) ∧ (liveTimers (run s ins) ≤ 1)%nat.
Proof.
  intros Ht Hw.
  assert (tidyTimers (run s ins)) as Hr.
  { revert s Ht Hw. induction ins as [|i ins IH]; intros s Ht Hw; [done|].
    destruct Hw as [Hsp Hw]. cbn. apply IH; [by apply step_tidy|done]. }
  split; [done|]. unfold liveTimers, tidyTimers in *.
  rewrite <- (length_fmap fst), Hr.
  destruct (completeSwipeTimeout (run s ins)); cbn; lia.
Qed.

Lemma spaced_transitions_keep_one_timer_witness :
  (liveTimers
     (run idleState
        [TransitionEnd panelTransitionEnd; TimerFires 1%positive;
         TransitionEnd panelTransitionEnd;
         DragStart (sampleDom 100) (gesture (-5) 0);
         TransitionEnd panelTransitionEnd]) ≤ 1)%nat.
Proof.
  apply spaced_transitions_keep_one_timer; [reflexivity|].
  cbn [wellSpaced spaced]. split_and!; try exact I; intros _; reflexivity.
Defined.

(** *** A whole first swipe *)

Lemma fireTimer_single id e s :
  timers s = [(id, e)] →
  fireTimer id s
  = (completeSwipe e (set_timer (completeSwipeTimeout s) [] (nextTimer s) s)).2.
Proof.
  intros Ht. unfold fireTimer. rewrite Ht. cbn.
  rewrite !decide_True by done. cbn.
  rewrite decide_False by (intros H; by apply H). done.
Qed.

(** What [dragstart] leaves behind when no timer is pending and no
    panel persists. *)
Lemma dragstart_fresh dm e s :
  hasSwipeableComponents s = true → vertical e = false →
  persistentItemVisisble s = false → completeSwipeTimeout s = None →
  let s1 := dragstart dm e s in
  enableSwipe s1 = enableSwipe s
  ∧ flicked s1 = false ∧ swipeComplete s1 = false
  ∧ persistentItemVisisble s1 = false
  ∧ persistSwipeableItem s1
    = persistSwipeableItem s && negb (swipeIndexChanged (index e) s)
  ∧ swipeIndex s1
    = match index e with Some i => Some i | None => swipeIndex s end
  ∧ swipeDirection s1 = xDirection e
  ∧ persistentItemOrigin s1
    = Some (if isOne (xDirection e) then sideLeft else sideRight)
  ∧ showing (panel s1) = true
  ∧ emitted s1 = emitted s ++ [onSetupSwipeItem e]
  ∧ timers s1 = timers s ∧ nextTimer s1 = nextTimer s
  ∧ completeSwipeTimeout s1 = None.
Proof.
  intros Hhas Hv Hp Ht. unfold dragstart. rewrite Hhas, Hv. cbn [negb orb].
  cbv zeta. cbn [completeSwipeTimeout setSwipeDirection]. rewrite Ht.
  unfold swipeIndexChanged, setSwipeIndex, startSwipe,
    positionSwipeableContainer.
  cbn. rewrite ?Hp.
  destruct (swipeIndex s) as [cur|] eqn:Ec; destruct (index e) as [j|] eqn:Ej;
    cbn; rewrite ?Hp, ?Ec; cbn;
    try (destruct (Z.eqb_spec j cur) as [->|Hne]); cbn; rewrite ?Hp; cbn;
    repeat case_match; cbn; rewrite ?andb_true_r, ?andb_false_r;
    split_and!; done.
Qed.

(** A first swipe from start to settle: [dragstart], [dragfinish], the
    transition-end of the panel and its completion timer.  The panel is
    set up once; it ends up persisting exactly when the option is on and
    the row did not change; otherwise it is hidden and [onSwipeComplete]
    is emitted exactly when the drag went beyond the threshold, carrying
    the swiped row and the drag direction.  No timer is left pending. *)
Theorem first_swipe_gesture dm1 e1 dm2 e2 et s :
  hasSwipeableComponents s = true → enableSwipe s = true →
  vertical e1 = false →
  persistentItemVisisble s = false →
  completeSwipeTimeout s = None → timers s = [] →
  originatorName et = "swipeableComponents"%string →
  let persists :=
    persistSwipeableItem s && negb (swipeIndexChanged (index e1) s) in
  let far :=
    exceeds (calcPercentageDragged dm2 (dx e2)) percentageDraggedThreshold in
  let row := match index e1 with Some i => Some i | None => swipeIndex s end in
  let payload :=
    with_index_dir (match index et with None => row | Some _ => index et end)
      (xDirection e1) et in
  let s' := run s [DragStart dm1 e1; DragFinish dm2 e2; TransitionEnd et;
                   TimerFires (nextTimer s)] in
  emitted s'
  = emitted s ++ [onSetupSwipeItem e1]
    ++ (if negb persists && far then [onSwipeComplete payload] else [])
  ∧ showing (panel s') = persists
  ∧ persistentItemVisisble s' = persists
  ∧ persistSwipeableItem s' = persists
  ∧ swipeComplete s' = far
  ∧ swipeIndex s' = row
  ∧ swipeDirection s' = None
  ∧ completeSwipeTimeout s' = None ∧ timers s' = [].
Proof.
  intros Hhas Hen Hv Hp Ht Hts Hname persists far row payload s'.
  subst s'. cbn [run foldl step].
  destruct (dragstart_fresh dm1 e1 s Hhas Hv Hp Ht)
    as (F1 & F2 & F3 & F4 & F5 & F6 & F7 & F8 & F9 & F10 & F11 & F12 & F13).
  fold persists in F5. fold row in F6.
  set (s1 := dragstart dm1 e1 s) in *. clearbody s1.
  rewrite Hen in F1. rewrite Hts in F11.
  assert (∃ s2, dragfinish dm2 e2 s1 = s2
            ∧ swipeComplete s2 = far
            ∧ persistSwipeableItem s2 = persists
            ∧ persistentItemVisisble s2 = false
            ∧ swipeIndex s2 = row ∧ swipeDirection s2 = xDirection e1
            ∧ showing (panel s2) = true
            ∧ emitted s2 = emitted s ++ [onSetupSwipeItem e1]
            ∧ timers s2 = [] ∧ nextTimer s2 = nextTimer s
            ∧ completeSwipeTimeout s2 = None)
    as (s2 & -> & G1 & G2 & G3 & G4 & G5 & G6 & G7 & G8 & G9 & G10).
  { eexists. split; [reflexivity|].
    unfold dragfinish, wasFlicked. rewrite F1, F2, F4. cbn [negb].
    fold far. destruct far; cbn; split_and!; done. }
  clear F1 F2 F3 F4 F5 F6 F7 F8 F9 F10 F11 F12 F13. clearbody persists far row.
  assert (∃ s3, transitionComplete et s2 = s3
            ∧ swipeComplete s3 = far
            ∧ persistSwipeableItem s3 = persists
            ∧ persistentItemVisisble s3 = false
            ∧ swipeIndex s3 = row ∧ swipeDirection s3 = xDirection e1
            ∧ showing (panel s3) = true
            ∧ emitted s3 = emitted s ++ [onSetupSwipeItem e1]
            ∧ timers s3 = [(nextTimer s, et)]
            ∧ completeSwipeTimeout s3 = Some (nextTimer s))
    as (s3 & -> & K1 & K2 & K3 & K4 & K5 & K6 & K7 & K8 & K9).
  { eexists. split; [reflexivity|].
    unfold transitionComplete. rewrite Hname. cbn.
    rewrite G8, G9. split_and!; done. }
  clear G1 G2 G3 G4 G5 G6 G7 G8 G9 G10.
  rewrite (fireTimer_single (nextTimer s) et s3 K8).
  unfold completeSwipe. cbn. rewrite K9. cbn. rewrite K2, K1.
  subst payload.
  destruct persists, far; cbn; rewrite ?K3, ?K4, ?K5, ?K6, ?K7;
    split_and!; try done.
  all: by rewrite <- app_assoc.
Qed.

Lemma first_swipe_gesture_witness :
  let s' := run idleState
              [DragStart (sampleDom 100) (gesture (-5) 0);
               DragFinish (sampleDom 70) (gesture (-30) 0);
               TransitionEnd panelTransitionEnd; TimerFires 1%positive] in
  showing (panel s') = false
  ∧ emitted s'
    = [onSetupSwipeItem (gesture (-5) 0);
       onSwipeComplete
         (with_index_dir (Some 3) (Some (-1)) panelTransitionEnd)].
Proof.
  intros s'.
  destruct (first_swipe_gesture (sampleDom 100) (gesture (-5) 0)
              (sampleDom 70) (gesture (-30) 0) panelTransitionEnd idleState)
    as (He & Hs & _); try reflexivity.
  split; [exact Hs|exact He].
Defined.

(** *** dragstart *)

(** An accepted [dragstart] (swipeable components present, drag not
    vertical) clears the flicked and swipe-complete flags, leaves no
    timer handle stored, and adopts the row of the event.  It records the
    drag direction only when it had no pending swipe to complete:
    completing one resets [swipeDirection] to null after the new
    direction was stored.  Starting on another row switches the
    [persistSwipeableItem] option off. *)
Theorem dragstart_outcome dm e s :
  hasSwipeableComponents s = true → vertical e = false →
  let s1 := dragstart dm e s in
  flicked s1 = false
  ∧ swipeComplete s1 = false
  ∧ completeSwipeTimeout s1 = None
  ∧ swipeIndex s1
    = match index e with Some i => Some i | None => swipeIndex s end
  ∧ swipeDirection s1
    = match completeSwipeTimeout s with
      | Some _ => None
      | None => xDirection e
      end
  ∧ (swipeIndexChanged (index e) s = true →
     persistSwipeableItem s1 = false).
Proof.
  intros Hhas Hv s1. subst s1. unfold dragstart.
  rewrite Hhas, Hv. cbn [negb orb].
  cbv zeta. cbn [completeSwipeTimeout setSwipeDirection].
  assert (∀ e2 s2,
            let r := (let s := setFlicked false s2 in
                      let s := setSwipeComplete false s in
                      let s := if swipeIndexChanged (index e2) s
                               then setSwipeIndex (index e2) (clearSwipeables s)
                               else s in
                      if negb (persistentItemVisisble s)
                      then startSwipe dm e2 s else s) in
            flicked r = false ∧ swipeComplete r = false
            ∧ completeSwipeTimeout r = completeSwipeTimeout s2
            ∧ swipeIndex r
              = match index e2 with Some i => Some i | None => swipeIndex s2 end
            ∧ swipeDirection r = swipeDirection s2
            ∧ (swipeIndexChanged (index e2) s2 = true →
               persistSwipeableItem r = false)) as Hrest.
  { intros e2 s2. cbv zeta.
    unfold swipeIndexChanged, setSwipeIndex, startSwipe,
      positionSwipeableContainer. cbn.
    destruct (swipeIndex s2) as [cur|] eqn:Ec;
      destruct (index e2) as [j|] eqn:Ej; cbn;
      try (destruct (Z.eqb_spec j cur) as [->|Hne]); cbn;
      repeat (case_match; cbn); rewrite ?Ec; split_and!; done. }
  cbv zeta in Hrest.
  destruct (completeSwipeTimeout s) as [id|] eqn:Et.
  - pose proof (completeSwipe_timers e (setSwipeDirection (xDirection e) s))
      as (_ & HT & _).
    assert (index (completeSwipe e (setSwipeDirection (xDirection e) s)).1
            = match index e with Some i => Some i | None => swipeIndex s end
            ∧ swipeIndex (completeSwipe e (setSwipeDirection (xDirection e) s)).2
              = swipeIndex s
            ∧ swipeDirection
                (completeSwipe e (setSwipeDirection (xDirection e) s)).2 = None)
      as (Hi & Hx & Hd).
    { unfold completeSwipe. cbn. rewrite Et. cbn.
      destruct (persistSwipeableItem s); cbn;
        [|destruct (swipeComplete s); cbn];
        (split_and!; [by destruct (index e)|done|done]). }
    destruct (completeSwipe e (setSwipeDirection (xDirection e) s))
      as [e2 s2]. cbn [fst snd] in *.
    destruct (Hrest e2 s2) as (R1 & R2 & R3 & R4 & R5 & R6).
    split_and!.
    + exact R1.
    + exact R2.
    + by rewrite R3.
    + rewrite R4, Hi, Hx. destruct (index e); [done|].
      by destruct (swipeIndex s).
    + by rewrite R5.
    + intros Hch. apply R6. unfold swipeIndexChanged in *.
      rewrite Hx, Hi. destruct (swipeIndex s) as [cur|]; [|done].
      destruct (index e); [done|discriminate].
  - destruct (Hrest e (setSwipeDirection (xDirection e) s))
      as (R1 & R2 & R3 & R4 & R5 & R6).
    cbn in R3, R4, R5. rewrite R3, R4, R5, Et. split_and!; done.
Qed.

Lemma dragstart_outcome_witness :
  swipeDirection
    (dragstart (sampleDom 100) (gesture 5 0)
       (transitionComplete panelTransitionEnd (draggingState 0))) = None
  ∧ swipeDirection (dragstart (sampleDom 100) (gesture 5 0) (draggingState 0))
    = Some 1.
Proof.
  destruct (dragstart_outcome (sampleDom 100) (gesture 5 0)
              (transitionComplete panelTransitionEnd (draggingState 0)))
    as (_ & _ & _ & _ & Hd1 & _); [reflexivity|reflexivity|].
  destruct (dragstart_outcome (sampleDom 100) (gesture 5 0) (draggingState 0))
    as (_ & _ & _ & _ & Hd2 & _); [reflexivity|reflexivity|].
  split; [exact Hd1|exact Hd2].
Defined.

(** *** drag *)



(** *** enableSwipe *)

(** With [enableSwipe] off, [drag], [flick] and [dragfinish] do nothing;
    [dragstart] does not look at the option and still reveals the panel
    and asks for its content. *)
Theorem disabled_swipe_still_starts dm e s :
  enableSwipe s = false →
  (drag dm e s = s ∧ flick dm e s = s ∧ dragfinish dm e s = s)
  ∧ (hasSwipeableComponents s = true → vertical e = false →
     persistentItemVisisble s = false → completeSwipeTimeout s = None →
     showing (panel (dragstart dm e s)) = true
     ∧ emitted (dragstart dm e s) = emitted s ++ [onSetupSwipeItem e]
     ∧ enableSwipe (dragstart dm e s) = false).
Proof.
  intros He. split.
  - unfold drag, flick, dragfinish. by rewrite He.
  - intros Hhas Hv Hp Ht.
    destruct (dragstart_fresh dm e s Hhas Hv Hp Ht)
      as (F1 & _ & _ & _ & _ & _ & _ & _ & F9 & F10 & _).
    split; [done|]. split; [done|]. by rewrite F1.
Qed.

Lemma disabled_swipe_still_starts_witness :
  dragfinish (sampleDom 0) (gesture (-30) 0) disabledState = disabledState
  ∧ showing (panel (dragstart (sampleDom 100) (gesture (-5) 0) disabledState))
    = true
  ∧ emitted (dragstart (sampleDom 100) (gesture (-5) 0) disabledState)
    = [onSetupSwipeItem (gesture (-5) 0)].
Proof.
  destruct (disabled_swipe_still_starts (sampleDom 0) (gesture (-30) 0)
              disabledState) as ((_ & _ & Hf) & _); [reflexivity|].
  destruct (disabled_swipe_still_starts (sampleDom 100) (gesture (-5) 0)
              disabledState) as (_ & Hs); [reflexivity|].
  destruct Hs as (Hshow & Hemit & _); try reflexivity.
  split; [exact Hf|]. split; [exact Hshow|exact Hemit].
Defined.

(** *** Timer handles *)

Lemma filtered_ids (P : positive → Prop) `{∀ x, Decision (P x)}
    (l : list positive) n :
  NoDup l → Forall (fun id => (id < n)%positive) l →
  NoDup (filter P l) ∧ Forall (fun id => (id < n)%positive) (filter P l).
Proof.
  intros Hnd Hlt. split; [by apply NoDup_filter|].
  rewrite Forall_forall in *. intros x Hx.
  apply list_elem_of_filter in Hx as [_ Hx]. by apply Hlt.
Qed.

Lemma step_timerInv s i : timerInv s → timerInv (step s i).
Proof.
  intros (Hnd & Hlt & Hh). unfold timerInv.
  pose proof (step_timers_frame s i) as Hfr.
  destruct i as [dm e|dm e|dm e|dm e|e|id|v];
    try (destruct Hfr as (-> & -> & ->); done); cbn [step].
  - destruct (dragstart_timers dm e s)
      as [(-> & -> & ->)|(id & Hid & -> & -> & ->)]; [done|].
    rewrite fmap_fst_filter_ne.
    destruct (filtered_ids (fun x => x ≠ id) (timers s).*1 (nextTimer s))
      as [? ?]; done.
  - unfold transitionComplete. destruct (negb _); [done|]. cbn.
    rewrite fmap_app. cbn. split_and!.
    + apply NoDup_app. split; [done|]. split; [|apply NoDup_singleton].
      intros x Hx Hx'. apply list_elem_of_singleton in Hx' as ->.
      rewrite Forall_forall in Hlt. specialize (Hlt _ Hx). cbn beta in Hlt.
      lia.
    + apply Forall_app. split.
      * eapply Forall_impl; [exact Hlt|]. intros x Hx. cbn beta in *. lia.
      * apply Forall_singleton. cbn beta. lia.
    + intros id' [= <-]. apply elem_of_app. right. by apply list_elem_of_singleton.
  - destruct (fireTimer_timers id s) as [[-> _]|(Hin & -> & -> & ->)]; [done|].
    destruct (filtered_ids (fun x => x ≠ id) (timers s).*1 (nextTimer s))
      as [N1 L1]; [done|done|].
    destruct (completeSwipeTimeout s) as [h|]; [|done].
    destruct (filtered_ids (fun x => x ≠ h)
                (filter (fun x => x ≠ id) (timers s).*1) (nextTimer s))
      as [? ?]; done.
Qed.

Lemma run_timerInv ins s : timerInv s → timerInv (run s ins).
Proof.
  revert s. induction ins as [|i ins IH]; intros s Hs; [done|].
  cbn. apply IH. by apply step_timerInv.
Qed.

(** An accepted [dragstart] that finds a handle stored clears exactly
    that timer. *)
Lemma dragstart_forced_timers dm e s id :
  hasSwipeableComponents s = true → vertical e = false →
  completeSwipeTimeout s = Some id →
  timers (dragstart dm e s) = filter (fun t => t.1 ≠ id) (timers s)
  ∧ completeSwipeTimeout (dragstart dm e s) = None.
Proof.
  intros Hhas Hv Hid.
  destruct (dragstart_timers dm e s)
    as [(_ & Hh & _)|(id' & Hid' & Ht & Hh & _)].
  - exfalso. revert Hh. unfold dragstart. rewrite Hhas, Hv. cbn [negb orb].
    cbv zeta. cbn [completeSwipeTimeout setSwipeDirection]. rewrite Hid.
    pose proof (completeSwipe_timers e (setSwipeDirection (xDirection e) s))
      as (_ & HT & _).
    destruct (completeSwipe e (setSwipeDirection (xDirection e) s))
      as [e2 s2]. cbn [snd] in HT.
    unfold startSwipe, positionSwipeableContainer. cbn.
    repeat (case_match; cbn); congruence.
  - rewrite Hid in Hid'. injection Hid' as <-. done.
Qed.

Lemma filter_ne_absent (l : list positive) x :
  x ∉ l → filter (fun y => y ≠ x) l = l.
Proof.
  induction l as [|a l IH]; intros Hx; [done|].
  apply not_elem_of_cons in Hx as [Hne Hx]. rewrite filter_cons.
  rewrite decide_True by done. f_equal. by apply IH.
Qed.

Lemma length_filter_ne (l : list positive) x :
  NoDup l → x ∈ l → S (length (filter (fun y => y ≠ x) l)) = length l.
Proof.
  induction l as [|a l IH]; intros Hnd Hin; [by apply elem_of_nil in Hin|].
  apply NoDup_cons in Hnd as [Ha Hnd]. rewrite filter_cons.
  destruct (decide (a = x)) as [->|Hne].
  - rewrite decide_False by (intros H; by apply H). cbn. f_equal.
    f_equal. by apply filter_ne_absent.
  - rewrite decide_True by done. cbn. f_equal. apply IH; [done|].
    apply elem_of_cons in Hin as [->|]; done.
Qed.

(** Between inputs, a handle stored in [completeSwipeTimeout] always
    names a timer that is still pending (timer ids being fresh), so the
    [clearTimeout] of a [dragstart] that force-completes a swipe cancels
    exactly one live timer. *)
Theorem timer_handle_is_pending ins s :
  timerInv s →
  (∀ id, completeSwipeTimeout (run s ins) = Some id →
     id ∈ (timers (run s ins)).*1)
  ∧ (∀ dm e id,
       hasSwipeableComponents (run s ins) = true → vertical e = false →
       completeSwipeTimeout (run s ins) = Some id →
       S (liveTimers (dragstart dm e (run s ins))) = liveTimers (run s ins)).
Proof.
  intros Hs. destruct (run_timerInv ins s Hs) as (Hnd & _ & Hh).
  split; [exact Hh|]. intros dm e id Hhas Hv Hid.
  destruct (dragstart_forced_timers dm e _ id Hhas Hv Hid) as [Ht _].
  unfold liveTimers. rewrite Ht, <- !(length_fmap fst), fmap_fst_filter_ne.
  apply length_filter_ne; [done|by apply Hh].
Qed.

Lemma timer_handle_is_pending_witness :
  let s' := run idleState
              [TransitionEnd panelTransitionEnd;
               TransitionEnd panelTransitionEnd; TimerFires 1%positive;
               TransitionEnd panelTransitionEnd] in
  completeSwipeTimeout s' = Some 3%positive
  ∧ 3%positive ∈ (timers s').*1
  ∧ liveTimers (dragstart (sampleDom 100) (gesture (-5) 0) s') = 0%nat.
Proof.
  intros s'.
  destruct (timer_handle_is_pending
              [TransitionEnd panelTransitionEnd;
               TransitionEnd panelTransitionEnd; TimerFires 1%positive;
               TransitionEnd panelTransitionEnd] idleState) as [Hin Hcut].
  { split; [apply NoDup_nil_2|]. split; [apply Forall_nil_2|]. intros id [=]. }
  split; [reflexivity|]. split; [by apply Hin|].
  specialize (Hcut (sampleDom 100) (gesture (-5) 0) 3%positive
                eq_refl eq_refl eq_refl).
  apply eq_add_S. exact Hcut.
Defined.

End SwipeProofs.
